(** * Task store of the to-do application: embedding and verified properties

    The store lives in the [MainApp] component: a list of task objects held
    in React state, mutated by [addTask], [toggleTask], [editTask],
    [confirmDelete], [clearCompleted], [updateTaskPriority],
    [updateTaskDueDate], [reorderTasks] and [clearAllTasks], read through
    [filteredTasks] and the statistics, loaded by [loadData] and saved by
    the [saveTasks] and [saveTheme] effects under the AsyncStorage keys
    ["@tasks"] and ["@theme"].  The [TaskItem] row component calls into
    the store: its [saveEdit] guards [editTask], its [changePriority],
    date picker and drag release call the update and reorder operations,
    and it derives the overdue flag and the due-date label of a task.

    Conventions of the embedding.
    - React state is passed explicitly: every operation takes the task
      list its handler sees and returns the list handed to [setTasks],
      together with what else it signals.  A handler made anew at every
      render sees the current list; the drag handler of a row, made once
      and kept in a ref, sees the list of the render that made it.
    - An effect is a function of its own, applied after the handler that
      triggers it.
    - The clock is an explicit input: one reading for each [Date.now()] or
      [new Date()] the code evaluates.
    - A [Date] object is its time value, a [Z] number of milliseconds
      since the epoch.
    - A JavaScript string is a [string] whose characters are the code
      units 0..255.
    - AsyncStorage is a map from keys to strings whose calls succeed.
    - The platform functions the store relies on ([trim], [toLowerCase],
      [includes], [splice], [JSON.stringify], [JSON.parse], [toISOString],
      [Date.parse]) are written out after ECMA-262, on the values above.
      Code that can throw returns an [outcome]. *)

From Stdlib Require Import ZArith List String Ascii Bool Lia Permutation.
Import ListNotations.
Local Open Scope Z_scope.

(** ** JavaScript string primitives used by the store *)

Module JsString.

(** White space in the sense of [String.prototype.trim], restricted to
    code units below 256: TAB, LF, VT, FF, CR, SPACE and NBSP. *)
Definition isWhiteSpace (c : ascii) : bool :=
  let n := N_of_ascii c in
  (((9 <=? n) && (n <=? 13)) || (n =? 32) || (n =? 160))%N.

Fixpoint trimStart (s : string) : string :=
  match s with
  | EmptyString => EmptyString
  | String c r => if isWhiteSpace c then trimStart r else s
  end.

Fixpoint trimEnd (s : string) : string :=
  match s with
  | EmptyString => EmptyString
  | String c r =>
      match trimEnd r with
      | EmptyString => if isWhiteSpace c then EmptyString else String c EmptyString
      | r' => String c r'
      end
  end.

Definition trim (s : string) : string := trimEnd (trimStart s).

(** JavaScript truthiness of a string: every string but the empty one. *)
Definition truthy (s : string) : bool :=
  match s with
  | EmptyString => false
  | String _ _ => true
  end.

(** [toLowerCase] on one code unit below 256: A-Z and the Latin-1 capitals
    (U+00C0..U+00DE except the multiplication sign U+00D7) move up by 32. *)
Definition lowerChar (c : ascii) : ascii :=
  let n := N_of_ascii c in
  if (((65 <=? n) && (n <=? 90))
      || ((192 <=? n) && (n <=? 222) && negb (n =? 215)))%N
  then ascii_of_N (n + 32)
  else c.

Fixpoint toLowerCase (s : string) : string :=
  match s with
  | EmptyString => EmptyString
  | String c r => String (lowerChar c) (toLowerCase r)
  end.

(** [hay.includes(needle)]: [needle] occurs in [hay] as a contiguous
    substring. *)
Fixpoint includes (hay needle : string) : bool :=
  if prefix needle hay then true
  else match hay with
       | EmptyString => false
       | String _ r => includes r needle
       end.

End JsString.

(** ** Data model *)

Inductive Priority : Type := low | medium | high.

(** A task object, with the six properties [addTask] gives it. *)
Record task : Type := mkTask {
  id : Z;                 (* [Date.now()] at creation *)
  text : string;
  completed : bool;
  createdAt : Z;          (* a [Date] *)
  priority : Priority;
  dueDate : option Z      (* a [Date], or [null] *)
}.

(** Object spreads [{ ...task, field: v }]. *)
Definition with_completed (b : bool) (t : task) : task :=
  mkTask (id t) (text t) b (createdAt t) (priority t) (dueDate t).
Definition with_text (s : string) (t : task) : task :=
  mkTask (id t) s (completed t) (createdAt t) (priority t) (dueDate t).
Definition with_priority (p : Priority) (t : task) : task :=
  mkTask (id t) (text t) (completed t) (createdAt t) p (dueDate t).
Definition with_dueDate (d : option Z) (t : task) : task :=
  mkTask (id t) (text t) (completed t) (createdAt t) (priority t) d.

(** The three readings of the system clock that one call of [addTask]
    takes, in evaluation order: [Date.now()] for [id], [new Date()] for
    [createdAt], and [new Date()] in the comparison that decides [dueDate]. *)
Record clock : Type := mkClock {
  now_id : Z;
  now_created : Z;
  now_due : Z
}.

(** A clock that does not advance during the call. *)
Definition at_instant (now : Z) : clock := mkClock now now now.

(** ** Store operations *)

(** [addTask]: [newTask], [priority] and [selectedDate] are the component
    state the function reads. *)
Definition addTask (clk : clock) (newTask : string) (prio : Priority)
    (selectedDate : Z) (tasks : list task) : list task :=
  if JsString.truthy (JsString.trim newTask) then
    let newTaskObj :=
      {| id := now_id clk;
         text := newTask;
         completed := false;
         createdAt := now_created clk;
         priority := prio;
         dueDate := if now_due clk <? selectedDate then Some selectedDate else None |} in
    newTaskObj :: tasks
  else tasks.

(** [toggleTask]: the new task list, and whether [setShowConfetti(true)]
    is called. *)
Definition toggleTask (taskId : Z) (tasks : list task) : list task * bool :=
  let updatedTasks :=
    map (fun t => if id t =? taskId then with_completed (negb (completed t)) t else t) tasks in
  (updatedTasks, forallb completed updatedTasks).

Definition editTask (taskId : Z) (newText : string) (tasks : list task) : list task :=
  map (fun t => if id t =? taskId then with_text newText t else t) tasks.

(** [saveEdit] of the task row: [onEdit] is [editTask] applied to the
    row's own task id.  The second component tells whether editing mode is
    left ([setIsEditing(false)]). *)
Definition saveEdit (taskId : Z) (editedText : string) (tasks : list task)
    : list task * bool :=
  if JsString.truthy (JsString.trim editedText)
  then (editTask taskId editedText tasks, true)
  else (tasks, false).

(** [confirmDelete], with [taskToDelete] as argument. *)
Definition confirmDelete (taskToDelete : Z) (tasks : list task) : list task :=
  filter (fun t => negb (id t =? taskToDelete)) tasks.

Definition clearCompleted (tasks : list task) : list task :=
  filter (fun t => negb (completed t)) tasks.

Definition updateTaskPriority (taskId : Z) (newPriority : Priority)
    (tasks : list task) : list task :=
  map (fun t => if id t =? taskId then with_priority newPriority t else t) tasks.

(** The row only passes a date the picker returned, never [null]. *)
Definition updateTaskDueDate (taskId : Z) (newDate : Z) (tasks : list task) : list task :=
  map (fun t => if id t =? taskId then with_dueDate (Some newDate) t else t) tasks.

(** *** The derived view *)

(** [filteredTasks]: [activeFilter] and [searchQuery] are component state,
    both strings. *)
Definition filteredTasks (activeFilter searchQuery : string) (tasks : list task)
    : list task :=
  filter (fun t =>
            if String.eqb activeFilter "active" then negb (completed t)
            else if String.eqb activeFilter "completed" then completed t
            else if JsString.truthy searchQuery
                 then JsString.includes (JsString.toLowerCase (text t))
                                        (JsString.toLowerCase searchQuery)
                 else true)
         tasks.

(** *** Reordering *)

Section Splice.
Context {A : Type}.

(** The start position [Array.prototype.splice] computes from its first
    argument: a negative index counts from the end, and the result is
    clamped to [0, length]. *)
Definition spliceStart (start : Z) (l : list A) : nat :=
  let len := Z.of_nat (List.length l) in
  Z.to_nat (if start <? 0 then Z.max (len + start) 0 else Z.min start len).

(** [l.splice(start, 1)]: the removed elements (at most one) and the
    array that is left. *)
Definition spliceDelete1 (start : Z) (l : list A) : list A * list A :=
  let k := spliceStart start l in
  (firstn 1 (skipn k l), firstn k l ++ skipn (S k) l).

(** [l.splice(start, 0, x)]: the array after the insertion. *)
Definition spliceInsert (start : Z) (x : A) (l : list A) : list A :=
  let k := spliceStart start l in
  firstn k l ++ x :: skipn k l.
End Splice.

(** [reorderTasks].  A slot of the resulting array holds a task or
    [undefined] ([None]): when [splice] removes nothing, the destructuring
    [const [removed] = ...] binds [undefined], and that is what gets
    inserted. *)
Definition reorderTasks (fromIndex toIndex : Z) (tasks : list task)
    : list (option task) :=
  let newTasks := map Some tasks in
  let '(removedElems, newTasks) := spliceDelete1 fromIndex newTasks in
  let removed := match removedElems with x :: _ => x | [] => None end in
  spliceInsert toIndex removed newTasks.

(** ** Outcomes of code that can throw

    [Throws]: a JavaScript exception is raised.  [Unmodelled]: the input
    leaves the fragment of JavaScript values this development represents
    (fractional numbers, code units above 255, date strings in another
    format than the one [toISOString] writes, objects that are not task
    records); nothing is stated about the program there. *)

Inductive outcome (A : Type) : Type :=
| Ok (a : A)
| Throws
| Unmodelled.
Arguments Ok {A} a.
Arguments Throws {A}.
Arguments Unmodelled {A}.

Definition bind {A B : Type} (m : outcome A) (f : A -> outcome B) : outcome B :=
  match m with
  | Ok a => f a
  | Throws => Throws
  | Unmodelled => Unmodelled
  end.

Notation "' p <- m ;; k" := (bind m (fun p => k))
  (at level 61, p pattern, m at next level, right associativity).

Definition of_option {A : Type} (o : option A) : outcome A :=
  match o with
  | Some a => Ok a
  | None => Unmodelled
  end.

(** ** Decimal digits *)

Module Digits.

Definition digitChar (d : Z) : ascii := ascii_of_N (48 + Z.to_N d).

Definition digitVal (c : ascii) : option Z :=
  let n := N_of_ascii c in
  if ((48 <=? n) && (n <=? 57))%N then Some (Z.of_N n - 48) else None.

(** [putDigits n v k]: the [n] low decimal digits of [v], most
    significant first, in front of [k]. *)
Fixpoint putDigits (n : nat) (v : Z) (k : string) : string :=
  match n with
  | O => k
  | S n' => putDigits n' (v / 10) (String (digitChar (v mod 10)) k)
  end.

(** Reads exactly [n] decimal digits. *)
Fixpoint readDigits (n : nat) (acc : Z) (s : string) : option (Z * string) :=
  match n with
  | O => Some (acc, s)
  | S n' =>
      match s with
      | EmptyString => None
      | String c r =>
          match digitVal c with
          | Some d => readDigits n' (acc * 10 + d) r
          | None => None
          end
      end
  end.

(** Reads the longest run of decimal digits. *)
Fixpoint readNat (acc : Z) (s : string) : Z * string :=
  match s with
  | EmptyString => (acc, s)
  | String c r =>
      match digitVal c with
      | Some d => readNat (acc * 10 + d) r
      | None => (acc, s)
      end
  end.

(** Number of decimal digits of [v], for [v >= 0]. *)
Fixpoint countDigits (fuel : nat) (v : Z) : nat :=
  match fuel with
  | O => 1%nat
  | S fuel' => if v <? 10 then 1%nat else S (countDigits fuel' (v / 10))
  end.

Definition numDigits (v : Z) : nat := countDigits (Z.to_nat (Z.log2 v)) v.

Definition startsWithDigit (s : string) : bool :=
  match s with
  | EmptyString => false
  | String c _ => match digitVal c with Some _ => true | None => false end
  end.

End Digits.

(** ** ISO 8601 date strings

    [Date.prototype.toISOString] and the part of [Date.parse] that reads
    back what it writes, after ECMA-262 (Day Number and Time within Day,
    Year Number, Month Number, Date Number, MakeTime, MakeDay, MakeDate,
    TimeClip, Date Time String Format). *)

Module IsoDate.

Definition msPerDay : Z := 86400000.
Definition maxTime : Z := 8640000000000000.

(** The time values a [Date] object can hold. *)
Definition validTime (t : Z) : Prop := - maxTime <= t <= maxTime.
Definition validTimeb (t : Z) : bool := (- maxTime <=? t) && (t <=? maxTime).

Definition Day (t : Z) : Z := t / msPerDay.
Definition TimeWithinDay (t : Z) : Z := t mod msPerDay.

Definition DayFromYear (y : Z) : Z :=
  365 * (y - 1970) + (y - 1969) / 4 - (y - 1901) / 100 + (y - 1601) / 400.

Definition isLeap (y : Z) : bool :=
  if negb (y mod 4 =? 0) then false
  else if negb (y mod 100 =? 0) then true
  else (y mod 400 =? 0).

Definition DaysInYear (y : Z) : Z := if isLeap y then 366 else 365.

(** The year of day number [d]: the largest [y] with
    [DayFromYear y <= d], found from an estimate that is off by one at
    most. *)
Definition YearFromDay (d : Z) : Z :=
  let y0 := 1970 + (400 * d) / 146097 in
  if d <? DayFromYear y0 then y0 - 1
  else if DayFromYear (y0 + 1) <=? d then y0 + 1
  else y0.

(** Day number within the year of the first day of month [m] (0-11). *)
Definition monthStart (leap : bool) (m : Z) : Z :=
  let l := if leap then 1 else 0 in
  if m <=? 0 then 0
  else if m =? 1 then 31
  else if m =? 2 then 59 + l
  else if m =? 3 then 90 + l
  else if m =? 4 then 120 + l
  else if m =? 5 then 151 + l
  else if m =? 6 then 181 + l
  else if m =? 7 then 212 + l
  else if m =? 8 then 243 + l
  else if m =? 9 then 273 + l
  else if m =? 10 then 304 + l
  else if m =? 11 then 334 + l
  else 365 + l.

(** Month (0-11) of the day with number [dwy] within its year. *)
Definition MonthFromDayWithinYear (leap : bool) (dwy : Z) : Z :=
  if dwy <? monthStart leap 1 then 0
  else if dwy <? monthStart leap 2 then 1
  else if dwy <? monthStart leap 3 then 2
  else if dwy <? monthStart leap 4 then 3
  else if dwy <? monthStart leap 5 then 4
  else if dwy <? monthStart leap 6 then 5
  else if dwy <? monthStart leap 7 then 6
  else if dwy <? monthStart leap 8 then 7
  else if dwy <? monthStart leap 9 then 8
  else if dwy <? monthStart leap 10 then 9
  else if dwy <? monthStart leap 11 then 10
  else 11.

Definition DaysInMonth (leap : bool) (m : Z) : Z :=
  monthStart leap (m + 1) - monthStart leap m.

(** The calendar fields of a time value, in UTC. *)
Record fields : Type := mkFields {
  year : Z; month : Z (* 1-12 *); date : Z (* 1-31 *);
  hours : Z; minutes : Z; seconds : Z; millis : Z
}.

Definition fieldsOfTime (t : Z) : fields :=
  let d := Day t in
  let y := YearFromDay d in
  let dwy := d - DayFromYear y in
  let m := MonthFromDayWithinYear (isLeap y) dwy in
  let tw := TimeWithinDay t in
  {| year := y;
     month := m + 1;
     date := dwy - monthStart (isLeap y) m + 1;
     hours := tw / 3600000;
     minutes := (tw / 60000) mod 60;
     seconds := (tw / 1000) mod 60;
     millis := tw mod 1000 |}.

Definition MakeDay (y m0 dt : Z) : Z :=
  DayFromYear y + monthStart (isLeap y) m0 + dt - 1.
Definition MakeTime (h mi s ms : Z) : Z :=
  h * 3600000 + mi * 60000 + s * 1000 + ms.
Definition MakeDate (day time : Z) : Z := day * msPerDay + time.

(** The time value of calendar fields, when each field is in its range
    and the result is a time value a [Date] can hold. *)
Definition timeOfFields (f : fields) : option Z :=
  if (1 <=? month f) && (month f <=? 12)
     && (1 <=? date f) && (date f <=? DaysInMonth (isLeap (year f)) (month f - 1))
     && (hours f <=? 23) && (minutes f <=? 59) && (seconds f <=? 59)
  then
    let t := MakeDate (MakeDay (year f) (month f - 1) (date f))
                      (MakeTime (hours f) (minutes f) (seconds f) (millis f)) in
    if validTimeb t then Some t else None
  else None.

Import Digits.

(** [YYYY] for the years 0 to 9999, otherwise a sign and six digits. *)
Definition putYear (y : Z) (k : string) : string :=
  if (0 <=? y) && (y <=? 9999) then putDigits 4 y k
  else if y <? 0 then String "-" (putDigits 6 (- y) k)
  else String "+" (putDigits 6 y k).

(** [toISOString], in front of [k]. *)
Definition putISO (t : Z) (k : string) : string :=
  let f := fieldsOfTime t in
  putYear (year f)
    (String "-" (putDigits 2 (month f)
    (String "-" (putDigits 2 (date f)
    (String "T" (putDigits 2 (hours f)
    (String ":" (putDigits 2 (minutes f)
    (String ":" (putDigits 2 (seconds f)
    (String "." (putDigits 3 (millis f)
    (String "Z" k))))))))))))).

Definition toISOString (t : Z) : string := putISO t EmptyString.

Definition expect (c : ascii) (s : string) : option string :=
  match s with
  | EmptyString => None
  | String c' r => if Ascii.eqb c' c then Some r else None
  end.

Definition readYear (s : string) : option (Z * string) :=
  match s with
  | EmptyString => None
  | String c r =>
      if Ascii.eqb c "+" then readDigits 6 0 r
      else if Ascii.eqb c "-" then
        match readDigits 6 0 r with
        | Some (y, r') => if y =? 0 then None else Some (- y, r')
        | None => None
        end
      else readDigits 4 0 s
  end.

Definition obind {A B : Type} (o : option A) (f : A -> option B) : option B :=
  match o with
  | Some a => f a
  | None => None
  end.

(** [Date.parse] on the complete form [YYYY-MM-DDTHH:mm:ss.sssZ] (with
    [YYYY] possibly an expanded year); [None] on every other string. *)
Definition parseISO (s : string) : option Z :=
  obind (readYear s) (fun '(y, s) =>
  obind (expect "-" s) (fun s =>
  obind (readDigits 2 0 s) (fun '(mo, s) =>
  obind (expect "-" s) (fun s =>
  obind (readDigits 2 0 s) (fun '(d, s) =>
  obind (expect "T" s) (fun s =>
  obind (readDigits 2 0 s) (fun '(h, s) =>
  obind (expect ":" s) (fun s =>
  obind (readDigits 2 0 s) (fun '(mi, s) =>
  obind (expect ":" s) (fun s =>
  obind (readDigits 2 0 s) (fun '(sec, s) =>
  obind (expect "." s) (fun s =>
  obind (readDigits 3 0 s) (fun '(ms, s) =>
  obind (expect "Z" s) (fun s =>
  match s with
  | EmptyString => timeOfFields (mkFields y mo d h mi sec ms)
  | String _ _ => None
  end)))))))))))))).

End IsoDate.

(** ** JSON text

    The values [JSON.parse] builds and [JSON.stringify] writes, with
    integer numbers and strings of code units below 256. *)

#[local] Set Warnings "-register-all".

Inductive json : Type :=
| JNull
| JBool (b : bool)
| JNum (n : Z)
| JStr (s : string)
| JArr (l : list json)
| JObj (members : list (string * json)).

Module Json.

Import Digits.

(** The integers a JavaScript number holds exactly. *)
Definition maxSafe : Z := 9007199254740992.
Definition safeInt (n : Z) : Prop := - maxSafe <= n <= maxSafe.
Definition safeIntb (n : Z) : bool := (- maxSafe <=? n) && (n <=? maxSafe).

(** *** Writing *)

Definition hexChar (d : N) : ascii :=
  if (d <? 10)%N then ascii_of_N (48 + d) else ascii_of_N (87 + d).

(** QuoteJSONString on one code unit, in front of [k]. *)
Definition putChar (c : ascii) (k : string) : string :=
  let n := N_of_ascii c in
  if (n =? 8)%N then String "\" (String "b" k)
  else if (n =? 9)%N then String "\" (String "t" k)
  else if (n =? 10)%N then String "\" (String "n" k)
  else if (n =? 12)%N then String "\" (String "f" k)
  else if (n =? 13)%N then String "\" (String "r" k)
  else if (n =? 34)%N then String "\" (String "034" k)
  else if (n =? 92)%N then String "\" (String "\" k)
  else if (n <? 32)%N then
    String "\" (String "u" (String "0" (String "0"
      (String (hexChar (n / 16)) (String (hexChar (n mod 16)) k)))))
  else String c k.

Fixpoint putChars (s : string) (k : string) : string :=
  match s with
  | EmptyString => k
  | String c r => putChar c (putChars r k)
  end.

Definition putString (s : string) (k : string) : string :=
  String "034" (putChars s (String "034" k)).

(** Number::toString on an integer below 10^21 in magnitude. *)
Definition putNumber (n : Z) (k : string) : string :=
  if n <? 0 then String "-" (putDigits (numDigits (- n)) (- n) k)
  else putDigits (numDigits n) n k.

Definition putSeparated {A : Type} (put : A -> string -> string) :=
  fix go (l : list A) (k : string) : string :=
    match l with
    | [] => k
    | [x] => put x k
    | x :: l' => put x (String "," (go l' k))
    end.

(** The text of a value, in front of [k]. *)
Fixpoint putValue (v : json) (k : string) : string :=
  match v with
  | JNull => String "n" (String "u" (String "l" (String "l" k)))
  | JBool true => String "t" (String "r" (String "u" (String "e" k)))
  | JBool false => String "f" (String "a" (String "l" (String "s" (String "e" k))))
  | JNum n => putNumber n k
  | JStr s => putString s k
  | JArr l => String "[" (putSeparated putValue l (String "]" k))
  | JObj ms =>
      String "{"
        (putSeparated (fun m k' => putString (fst m) (String ":" (putValue (snd m) k')))
                      ms (String "}" k))
  end.

(** [JSON.stringify] of a value that is already plain JSON data. *)
Definition stringify (v : json) : string := putValue v EmptyString.

(** *** Reading *)

Definition isJsonSpace (c : ascii) : bool :=
  let n := N_of_ascii c in
  ((n =? 32) || (n =? 9) || (n =? 10) || (n =? 13))%N.

Fixpoint skipSpace (s : string) : string :=
  match s with
  | EmptyString => EmptyString
  | String c r => if isJsonSpace c then skipSpace r else s
  end.

Definition hexVal (c : ascii) : option Z :=
  let n := N_of_ascii c in
  if ((48 <=? n) && (n <=? 57))%N then Some (Z.of_N n - 48)
  else if ((97 <=? n) && (n <=? 102))%N then Some (Z.of_N n - 87)
  else if ((65 <=? n) && (n <=? 70))%N then Some (Z.of_N n - 55)
  else None.

(** Four hexadecimal digits. *)
Definition readHex4 (s : string) : option (Z * string) :=
  match s with
  | String a (String b (String c (String d r))) =>
      match hexVal a, hexVal b, hexVal c, hexVal d with
      | Some x, Some y, Some z, Some w => Some (((x * 16 + y) * 16 + z) * 16 + w, r)
      | _, _, _, _ => None
      end
  | _ => None
  end.

(** The characters of a string literal after the opening quote, up to
    and including the closing quote. *)
Fixpoint readChars (s : string) : outcome (string * string) :=
  match s with
  | EmptyString => Throws
  | String c r =>
      let n := N_of_ascii c in
      if (n =? 34)%N then Ok (EmptyString, r)
      else if (n <? 32)%N then Throws
      else if (n =? 92)%N then
        match r with
        | EmptyString => Throws
        | String e r' =>
            let continue (c' : ascii) (rest : string) : outcome (string * string) :=
              ' (str, r'') <- readChars rest ;; Ok (String c' str, r'') in
            let m := N_of_ascii e in
            if (m =? 34)%N then continue "034"%char r'
            else if (m =? 92)%N then continue "\"%char r'
            else if (m =? 47)%N then continue "/"%char r'
            else if (m =? 98)%N then continue (ascii_of_N 8) r'
            else if (m =? 102)%N then continue (ascii_of_N 12) r'
            else if (m =? 110)%N then continue (ascii_of_N 10) r'
            else if (m =? 114)%N then continue (ascii_of_N 13) r'
            else if (m =? 116)%N then continue (ascii_of_N 9) r'
            else if (m =? 117)%N then
              match r' with
              | String a (String b (String c0 (String d r4))) =>
                  match readHex4 r' with
                  | Some (u, _) =>
                      if u <? 256 then continue (ascii_of_N (Z.to_N u)) r4
                      else Unmodelled
                  | None => Throws
                  end
              | _ => Throws
              end
            else Throws
        end
      else ' (str, r') <- readChars r ;; Ok (String c str, r')
  end.

Definition startsFraction (s : string) : bool :=
  match s with
  | EmptyString => false
  | String c _ =>
      let n := N_of_ascii c in ((n =? 46) || (n =? 101) || (n =? 69))%N
  end.

(** The digits of a number after an optional minus sign. *)
Definition readMagnitude (s : string) : outcome (Z * string) :=
  match s with
  | EmptyString => Throws
  | String c r =>
      match digitVal c with
      | None => Throws
      | Some d =>
          let '(n, r') := if d =? 0 then (0, r) else readNat d r in
          if startsFraction r' then Unmodelled
          else if startsWithDigit r' then Throws
          else if n <=? maxSafe then Ok (n, r') else Unmodelled
      end
  end.

Definition readNumber (s : string) : outcome (json * string) :=
  match s with
  | EmptyString => Throws
  | String c r =>
      if Ascii.eqb c "-" then ' (n, r') <- readMagnitude r ;; Ok (JNum (- n), r')
      else ' (n, r') <- readMagnitude s ;; Ok (JNum n, r')
  end.

Fixpoint readLiteral (lit : string) (s : string) : option string :=
  match lit with
  | EmptyString => Some s
  | String c lit' =>
      match s with
      | EmptyString => None
      | String c' r => if Ascii.eqb c c' then readLiteral lit' r else None
      end
  end.

Definition literal (lit : string) (v : json) (s : string) : outcome (json * string) :=
  match readLiteral lit s with
  | Some r => Ok (v, r)
  | None => Throws
  end.

Definition startsWith (c : ascii) (s : string) : bool :=
  match s with
  | EmptyString => false
  | String c' _ => Ascii.eqb c' c
  end.

Definition tail (s : string) : string :=
  match s with
  | EmptyString => EmptyString
  | String _ r => r
  end.

(** Recursive descent.  [fuel] bounds the chain of calls; a call chain
    spends at most two units for each character it passes, so that
    [parse] never runs out of it. *)
Fixpoint readValue (fuel : nat) (s : string) : outcome (json * string) :=
  match fuel with
  | O => Unmodelled
  | S fuel' =>
      match skipSpace s with
      | EmptyString => Throws
      | String c r =>
          if Ascii.eqb c "n" then literal "ull" JNull r
          else if Ascii.eqb c "t" then literal "rue" (JBool true) r
          else if Ascii.eqb c "f" then literal "alse" (JBool false) r
          else if Ascii.eqb c "034" then
            ' (str, r') <- readChars r ;; Ok (JStr str, r')
          else if Ascii.eqb c "[" then
            if startsWith "]" (skipSpace r) then Ok (JArr [], tail (skipSpace r))
            else ' (l, r') <- readElements fuel' r ;; Ok (JArr l, r')
          else if Ascii.eqb c "{" then
            if startsWith "}" (skipSpace r) then Ok (JObj [], tail (skipSpace r))
            else ' (ms, r') <- readMembers fuel' r ;; Ok (JObj ms, r')
          else readNumber (String c r)
      end
  end
with readElements (fuel : nat) (s : string) : outcome (list json * string) :=
  match fuel with
  | O => Unmodelled
  | S fuel' =>
      ' (v, r) <- readValue fuel' s ;;
      let r1 := skipSpace r in
      if startsWith "," r1 then
        ' (l, r') <- readElements fuel' (tail r1) ;; Ok (v :: l, r')
      else if startsWith "]" r1 then Ok ([v], tail r1)
      else Throws
  end
with readMembers (fuel : nat) (s : string) : outcome (list (string * json) * string) :=
  match fuel with
  | O => Unmodelled
  | S fuel' =>
      let s1 := skipSpace s in
      if startsWith "034" s1 then
        ' (key, r) <- readChars (tail s1) ;;
        let r1 := skipSpace r in
        if startsWith ":" r1 then
          ' (v, r2) <- readValue fuel' (tail r1) ;;
          let r3 := skipSpace r2 in
          if startsWith "," r3 then
            ' (ms, r') <- readMembers fuel' (tail r3) ;; Ok ((key, v) :: ms, r')
          else if startsWith "}" r3 then Ok ([(key, v)], tail r3)
          else Throws
        else Throws
      else Throws
  end.

(** [JSON.parse]: one value, and nothing but white space after it.  The
    members of an object are kept as written. *)
Definition parse (s : string) : outcome json :=
  ' (v, r) <- readValue (S (2 * String.length s)) s ;;
  match skipSpace r with
  | EmptyString => Ok v
  | String _ _ => Throws
  end.

End Json.

(** ** Persistence *)

Module Persist.

(** AsyncStorage: string values under string keys.  Reads and writes
    are taken to succeed. *)
Definition storage : Type := string -> option string.

Definition getItem (key : string) (st : storage) : option string := st key.
Definition setItem (key value : string) (st : storage) : storage :=
  fun k => if String.eqb k key then Some value else st k.
Definition removeItem (key : string) (st : storage) : storage :=
  fun k => if String.eqb k key then None else st k.

Definition emptyStorage : storage := fun _ => None.

(** The component state that loading and saving touch. *)
Record app : Type := mkApp {
  tasks : list task;
  isDarkMode : bool;
  isLoading : bool
}.

(** The [useState] initial values. *)
Definition initialApp : app := mkApp [] true true.

Definition priorityName (p : Priority) : string :=
  match p with
  | low => "low"
  | medium => "medium"
  | high => "high"
  end.

Definition priorityOfName (s : string) : option Priority :=
  if String.eqb s "low" then Some low
  else if String.eqb s "medium" then Some medium
  else if String.eqb s "high" then Some high
  else None.

(** What [JSON.stringify] serializes for a task: the properties in the
    order [addTask] created them, each [Date] replaced by the result of
    its [toJSON], which is [toISOString]. *)
Definition taskToJSON (t : task) : json :=
  JObj [ ("id"%string, JNum (id t));
         ("text"%string, JStr (text t));
         ("completed"%string, JBool (completed t));
         ("createdAt"%string, JStr (IsoDate.toISOString (createdAt t)));
         ("priority"%string, JStr (priorityName (priority t)));
         ("dueDate"%string,
           match dueDate t with
           | Some d => JStr (IsoDate.toISOString d)
           | None => JNull
           end) ].

(** [JSON.stringify(tasks)]. *)
Definition stringifyTasks (ts : list task) : string :=
  Json.stringify (JArr (map taskToJSON ts)).

(** The save effect: [saveTasks] runs after a render in which [tasks]
    or [isLoading] changed, unless the component is still loading. *)
Definition saveTasks (a : app) (st : storage) : storage :=
  if isLoading a then st
  else setItem "@tasks" (stringifyTasks (tasks a)) st.

(** An element of the parsed array that has the shape of a task, its
    dates still strings. *)
Record parsedTask : Type := mkParsed {
  p_id : Z;
  p_text : string;
  p_completed : bool;
  p_createdAt : string;
  p_priority : Priority;
  p_dueDate : option string
}.

Fixpoint member (key : string) (ms : list (string * json)) : option json :=
  match ms with
  | [] => None
  | (k, v) :: ms' => if String.eqb k key then Some v else member key ms'
  end.

(** An object with exactly the six properties of a task, each of the
    type the store gives it. *)
Definition asParsedTask (v : json) : option parsedTask :=
  match v with
  | JObj ms =>
      if (List.length ms =? 6)%nat then
        match member "id" ms, member "text" ms, member "completed" ms,
              member "createdAt" ms, member "priority" ms, member "dueDate" ms with
        | Some (JNum i), Some (JStr tx), Some (JBool c),
          Some (JStr cr), Some (JStr pr), Some due =>
            match priorityOfName pr, due with
            | Some p, JNull => Some (mkParsed i tx c cr p None)
            | Some p, JStr d => Some (mkParsed i tx c cr p (Some d))
            | _, _ => None
            end
        | _, _, _, _, _, _ => None
        end
      else None
  | _ => None
  end.

(** [new Date(s)] for a string [s]. *)
Definition newDate (s : string) : outcome Z := of_option (IsoDate.parseISO s).

(** The callback of [parsedTasks.map]:
    [{ ...task, createdAt: new Date(task.createdAt),
       dueDate: task.dueDate ? new Date(task.dueDate) : null }]. *)
Definition withDates (p : parsedTask) : outcome task :=
  ' created <- newDate (p_createdAt p) ;;
  ' due <- match p_dueDate p with
           | Some s =>
               if JsString.truthy s then ' d <- newDate s ;; Ok (Some d)
               else Ok None
           | None => Ok None
           end ;;
  Ok {| id := p_id p; text := p_text p; completed := p_completed p;
        createdAt := created; priority := p_priority p; dueDate := due |}.

(** The callback on an arbitrary element: reading a property of [null]
    throws a TypeError. *)
Definition reviveElement (v : json) : outcome task :=
  match v with
  | JNull => Throws
  | _ => ' p <- of_option (asParsedTask v) ;; withDates p
  end.

Fixpoint mapOutcome {A B : Type} (f : A -> outcome B) (l : list A) : outcome (list B) :=
  match l with
  | [] => Ok []
  | x :: l' => ' y <- f x ;; ' ys <- mapOutcome f l' ;; Ok (y :: ys)
  end.

(** The body of [if (savedTasks) { ... }]: the value given to
    [setTasks].  Only arrays have a [map] method. *)
Definition parseSavedTasks (savedTasks : string) : outcome (list task) :=
  ' parsedTasks <- Json.parse savedTasks ;;
  match parsedTasks with
  | JArr l => mapOutcome reviveElement l
  | _ => Throws
  end.

(** [loadData], run on the component state [a].  An exception in the
    [try] block is caught and logged, and leaves the state as it was; the
    [finally] block ends loading. *)
Definition loadData (st : storage) (a : app) : outcome app :=
  let savedTasks := getItem "@tasks" st in
  let savedTheme := getItem "@theme" st in
  let newTasks :=
    match savedTasks with
    | Some s => if JsString.truthy s then parseSavedTasks s else Ok (tasks a)
    | None => Ok (tasks a)
    end in
  match newTasks with
  | Ok ts =>
      let dark :=
        match savedTheme with
        | Some th => if JsString.truthy th then String.eqb th "dark" else isDarkMode a
        | None => isDarkMode a
        end in
      Ok (mkApp ts dark false)
  | Throws => Ok (mkApp (tasks a) (isDarkMode a) false)
  | Unmodelled => Unmodelled
  end.

(** [clearAllTasks]. *)
Definition clearAllTasks (a : app) (st : storage) : app * storage :=
  (mkApp [] (isDarkMode a) (isLoading a), removeItem "@tasks" st).

End Persist.

(** ** Histories of the store *)

(** The two operations that change which tasks exist, with what they
    read from the component state and from the clock. *)
Inductive op : Type :=
| Add (clk : clock) (newTask : string) (prio : Priority) (selectedDate : Z)
| Remove (taskId : Z).

Definition step (ts : list task) (o : op) : list task :=
  match o with
  | Add clk newTask prio selectedDate => addTask clk newTask prio selectedDate ts
  | Remove taskId => confirmDelete taskId ts
  end.

Definition run (ops : list op) (ts : list task) : list task :=
  fold_left step ops ts.

(** The [Date.now()] readings of the adds that pass the emptiness check. *)
Fixpoint idReadings (ops : list op) : list Z :=
  match ops with
  | [] => []
  | Add clk newTask _ _ :: ops' =>
      if JsString.truthy (JsString.trim newTask)
      then now_id clk :: idReadings ops'
      else idReadings ops'
  | Remove _ :: ops' => idReadings ops'
  end.

(** Task lists the store's operations produce from the empty store, when
    the clock and the date picker supply [Date] objects, and no reordering
    leaves an [undefined] slot in the array. *)
Inductive producible : list task -> Prop :=
| prod_initial : producible []
| prod_add clk newTask prio selectedDate ts :
    producible ts ->
    IsoDate.validTime (now_id clk) ->
    IsoDate.validTime (now_created clk) ->
    IsoDate.validTime selectedDate ->
    producible (addTask clk newTask prio selectedDate ts)
| prod_toggle taskId ts :
    producible ts -> producible (fst (toggleTask taskId ts))
| prod_edit taskId newText ts :
    producible ts -> producible (editTask taskId newText ts)
| prod_delete taskId ts :
    producible ts -> producible (confirmDelete taskId ts)
| prod_clearCompleted ts :
    producible ts -> producible (clearCompleted ts)
| prod_priority taskId p ts :
    producible ts -> producible (updateTaskPriority taskId p ts)
| prod_dueDate taskId d ts :
    producible ts -> IsoDate.validTime d ->
    producible (updateTaskDueDate taskId d ts)
| prod_reorder fromIndex toIndex ts ts' :
    producible ts ->
    reorderTasks fromIndex toIndex ts = map Some ts' ->
    producible ts'
| prod_clearAll a st :
    producible (Persist.tasks (fst (Persist.clearAllTasks a st))).

(** ** Vocabulary of the properties *)

Definition allCompleted (ts : list task) : bool := forallb completed ts.

Definition hasId (taskId : Z) (ts : list task) : bool :=
  existsb (fun t => id t =? taskId) ts.

(** Removal and insertion at a position, as the description of
    reordering words them. *)
Fixpoint removeAt {A : Type} (i : nat) (l : list A) : list A :=
  match l with
  | [] => []
  | x :: l' =>
      match i with
      | O => l'
      | S i' => x :: removeAt i' l'
      end
  end.

Fixpoint insertAt {A : Type} (i : nat) (x : A) (l : list A) : list A :=
  match i, l with
  | O, _ => x :: l
  | S i', y :: l' => y :: insertAt i' x l'
  | S _, [] => [x]
  end.

(** Two tasks agree on every property but the named one. *)
Definition sameButCompleted (t t' : task) : Prop :=
  id t' = id t /\ text t' = text t /\ createdAt t' = createdAt t
  /\ priority t' = priority t /\ dueDate t' = dueDate t.
Definition sameButText (t t' : task) : Prop :=
  id t' = id t /\ completed t' = completed t /\ createdAt t' = createdAt t
  /\ priority t' = priority t /\ dueDate t' = dueDate t.
Definition sameButPriority (t t' : task) : Prop :=
  id t' = id t /\ text t' = text t /\ completed t' = completed t
  /\ createdAt t' = createdAt t /\ dueDate t' = dueDate t.
Definition sameButDueDate (t t' : task) : Prop :=
  id t' = id t /\ text t' = text t /\ completed t' = completed t
  /\ createdAt t' = createdAt t /\ priority t' = priority t.

(** [ts'] is [ts] with at most the tasks of id [taskId] changed, and those
    only as far as [same] allows: same length, same ids at the same
    positions, and position by position a task that agrees with the old
    one, and is the old one when its id is not [taskId]. *)
Definition framed (same : task -> task -> Prop) (taskId : Z) (ts ts' : list task) : Prop :=
  List.length ts' = List.length ts
  /\ map id ts' = map id ts
  /\ Forall2 (fun t t' => same t t' /\ (id t <> taskId -> t' = t)) ts ts'.

(** White-space-only strings. *)
Fixpoint blank (s : string) : bool :=
  match s with
  | EmptyString => true
  | String c r => JsString.isWhiteSpace c && blank r
  end.

Definition allOf {A : Type} (P : A -> Prop) : list A -> Prop :=
  fix go (l : list A) : Prop :=
    match l with
    | [] => True
    | x :: l' => P x /\ go l'
    end.

Definition sumOf {A : Type} (w : A -> nat) : list A -> nat :=
  fix go (l : list A) : nat :=
    match l with
    | [] => O
    | x :: l' => (S (w x) + go l')%nat
    end.

(** JSON data whose numbers JavaScript holds exactly. *)
Fixpoint exactJson (v : json) : Prop :=
  match v with
  | JNum n => Json.safeInt n
  | JArr l => allOf exactJson l
  | JObj ms => allOf (fun m => exactJson (snd m)) ms
  | _ => True
  end.

(** A bound on the fuel [Json.readValue] spends on the text of a value. *)
Fixpoint weight (v : json) : nat :=
  match v with
  | JArr l => S (sumOf weight l)
  | JObj ms => S (sumOf (fun m => weight (snd m)) ms)
  | _ => 1%nat
  end.

(** Text that can follow a value: the end of the text, a comma, or a
    closing bracket or brace. *)
Definition closes (k : string) : bool :=
  match k with
  | EmptyString => true
  | String c _ => Ascii.eqb c "," || Ascii.eqb c "]" || Ascii.eqb c "}"
  end.

(** The first character of a number: a minus sign or a digit. *)
Definition numeric (c : ascii) : Prop :=
  c = "-"%char \/ exists d, 0 <= d <= 9 /\ c = Digits.digitChar d.

(** [Json.readValue] reads the text of [v] back and stops where it ends,
    whatever follows and with any sufficient fuel. *)
Definition readsBack (v : json) : Prop :=
  exactJson v ->
  forall (k : string) (fuel : nat),
    closes k = true -> (weight v <= fuel)%nat ->
    Json.readValue fuel (Json.putValue v k) = Ok (v, k).

(** A task whose id and dates are time values a [Date] can hold. *)
Definition storable (t : task) : Prop :=
  IsoDate.validTime (id t)
  /\ IsoDate.validTime (createdAt t)
  /\ match dueDate t with
     | Some d => IsoDate.validTime d
     | None => True
     end.

(** ** Sample data *)

Definition taskA : task := mkTask 1 "A" false 10 medium None.
Definition taskB : task := mkTask 2 "B" false 20 high None.
Definition taskC : task := mkTask 3 "C" true 30 low None.
Definition taskD : task := mkTask 4 "D" false 40 medium (Some 50).

(** Three adds at three different milliseconds, and a removal. *)
Definition distinctHistory : list op :=
  [ Add (at_instant 1000) "a" medium 0;
    Add (at_instant 1001) "b" high 2000;
    Remove 1000;
    Add (at_instant 1002) "c" low 0 ].

(** Two adds within the same millisecond. *)
Definition sameMillisecondHistory : list op :=
  [ Add (at_instant 1000) "a" medium 0;
    Add (at_instant 1000) "b" medium 0 ].

(** A store whose only task is completed. *)
Definition completedStore : list task := [mkTask 1 "done" true 0 medium None].

(** Two tasks added, one of them toggled and given a new due date. *)
Definition sampleTasks : list task :=
  updateTaskDueDate 1700000000000 1800000000000
    (fst (toggleTask 1700000000000
       (addTask (mkClock 1700000000500 1700000000501 1700000000501)
                ("say " ++ String "034" ("hi" ++ String "034" " \ soon"))%string high 1700003600000
          (addTask (at_instant 1700000000000) "  water the plants  " medium 0 [])))).

(** ** The rest of the main component *)

(** *** Statistics *)

Definition activeTasksCount (ts : list task) : nat :=
  List.length (filter (fun t => negb (completed t)) ts).

Definition completedTasksCount (ts : list task) : nat :=
  List.length (filter completed ts).

Definition isHigh (p : Priority) : bool :=
  match p with
  | high => true
  | _ => false
  end.

Definition highPriorityCount (ts : list task) : nat :=
  List.length (filter (fun t => isHigh (priority t) && negb (completed t)) ts).

(** [task.dueDate && new Date(task.dueDate) < new Date() && !task.completed],
    the test of the overdue count and of the row's [isOverdue]; [now] is
    the reading of its [new Date()]. *)
Definition isOverdue (now : Z) (t : task) : bool :=
  match dueDate t with
  | Some d => (d <? now) && negb (completed t)
  | None => false
  end.

(** [overdueCount]: the filter callback reads the clock once for each
    task; [now i] is the reading taken at position [i]. *)
Fixpoint overdueCountFrom (now : nat -> Z) (i : nat) (ts : list task) : nat :=
  match ts with
  | [] => O
  | t :: ts' =>
      ((if isOverdue (now i) t then 1 else 0) + overdueCountFrom now (S i) ts')%nat
  end.

Definition overdueCount (now : nat -> Z) (ts : list task) : nat :=
  overdueCountFrom now O ts.

(** *** The add form *)

(** The component state [addTask] reads: the text typed, the priority of
    the flag button, the date of the picker. *)
Record form : Type := mkForm {
  f_newTask : string;
  f_priority : Priority;
  f_selectedDate : Z
}.


(** The form after [addTask]: reset when the task was accepted
    ([setNewTask('')], [setPriority('medium')],
    [setSelectedDate(new Date())], the latter with the clock reading
    [now_reset]), untouched otherwise. *)
Definition formAfterAdd (now_reset : Z) (f : form) : form :=
  if JsString.truthy (JsString.trim (f_newTask f))
  then mkForm EmptyString medium now_reset
  else f.

(** One press of the add button: [addTask] on the form and the list. *)
Definition pressAdd (clk : clock) (now_reset : Z) (f : form) (ts : list task)
    : form * list task :=
  (formAfterAdd now_reset f,
   addTask clk (f_newTask f) (f_priority f) (f_selectedDate f) ts).

(** *** Theme *)

(** The theme effect: [saveTheme] runs after a render in which
    [isDarkMode] or [isLoading] changed, unless the component is still
    loading. *)
Definition saveTheme (a : Persist.app) (st : Persist.storage) : Persist.storage :=
  if Persist.isLoading a then st
  else Persist.setItem "@theme" (if Persist.isDarkMode a then "dark" else "light") st.

(** ** The rest of the task row *)


(** [handleDateChange] of the row: the picked date goes to
    [onDueDateChange], which is [updateTaskDueDate] on the task's id. *)
Definition rowDateChange (t : task) (selectedDate : option Z) (ts : list task)
    : list task :=
  match selectedDate with
  | Some d => updateTaskDueDate (id t) d ts
  | None => ts
  end.

(** [onPanResponderRelease].  The pan responder is created once, at
    the row's first render, and kept in a ref: its handler sees the
    [index], [totalTasks] and [reorderTasks] of that render, and
    [reorderTasks] reorders the task list of that render, [captured].
    [dropPosition] is [Math.round(dy / 60)], taken as an integer input.
    The result is the array the store holds after the release: [current],
    the list it held, when the clamped position is the row's own and
    [setTasks] is not called, and the reordered captured list otherwise. *)
Definition onPanResponderRelease (index totalTasks dropPosition : Z)
    (captured current : list task) : list (option task) :=
  let newIndex := Z.min (Z.max (index + dropPosition) 0) (totalTasks - 1) in
  if newIndex =? index then map Some current
  else reorderTasks index newIndex captured.

(** Number::toString on an integer. *)
Definition numberToString (n : Z) : string := Json.putNumber n EmptyString.

(** [getTimeRemaining]; [now] is the reading of its [new Date()].  The
    quotients are the floors of floating-point divisions, which are the
    integer quotients as long as the two dates are less than 2^27 days
    apart. *)
Definition getTimeRemaining (now : Z) (t : task) : string :=
  match dueDate t with
  | None => EmptyString
  | Some due =>
      let diff := due - now in
      let days := diff / (1000 * 60 * 60 * 24) in
      if days <? 0 then "Overdue"
      else if days =? 0 then "Due today"
      else if days =? 1 then "Due tomorrow"
      else if days <? 7 then ("Due in " ++ numberToString days ++ " days")%string
      else if days <? 30 then ("Due in " ++ numberToString (days / 7) ++ " weeks")%string
      else ("Due in " ++ numberToString (days / 30) ++ " months")%string
  end.

(** ** Histories of the whole store *)

(** What the user can do to the task list, with what each handler reads.
    A release names the render at which the dragged row was first
    rendered, counted back from the current one, with the row's index and
    the length of the view at that render. *)
Inductive action : Type :=
| DoAdd (clk : clock) (newTask : string) (prio : Priority) (selectedDate : Z)
| DoToggle (taskId : Z)
| DoSaveEdit (taskId : Z) (editedText : string)
| DoDelete (taskId : Z)
| DoClearCompleted
| DoPriority (taskId : Z) (newPriority : Priority)
| DoDueDate (taskId : Z) (newDate : Z)
| DoRelease (render : nat) (index totalTasks dropPosition : Z)
| DoClearAll.

(** The tasks of an array without [undefined] slots. *)
Fixpoint allDefined {A : Type} (l : list (option A)) : option (list A) :=
  match l with
  | [] => Some []
  | Some x :: l' =>
      match allDefined l' with
      | Some xs => Some (x :: xs)
      | None => None
      end
  | None :: _ => None
  end.

(** The task list the store holds, and the lists it held before, latest
    first: the lists the component has rendered. *)
Definition history : Type := (list task * list (list task))%type.

Definition rendered (h : history) : list (list task) := fst h :: snd h.

(** The history after an action.  Every handler but the release works on
    the current list.  A release works on the list of the render it
    names, where the row had an index below the length of the view, which
    is at most the length of that list; [None] when there is no such
    render or row, or when the array gets an [undefined] slot.  That the
    row was first rendered at the render named, and is still shown, is not
    checked: the histories include every release the component can make,
    and more. *)
Definition perform (h : history) (a : action) : option history :=
  let ts := fst h in
  let next (ts' : list task) : option history := Some (ts', ts :: snd h) in
  match a with
  | DoAdd clk newTask prio selectedDate => next (addTask clk newTask prio selectedDate ts)
  | DoToggle taskId => next (fst (toggleTask taskId ts))
  | DoSaveEdit taskId editedText => next (fst (saveEdit taskId editedText ts))
  | DoDelete taskId => next (confirmDelete taskId ts)
  | DoClearCompleted => next (clearCompleted ts)
  | DoPriority taskId p => next (updateTaskPriority taskId p ts)
  | DoDueDate taskId d => next (updateTaskDueDate taskId d ts)
  | DoRelease render index totalTasks dropPosition =>
      match nth_error (rendered h) render with
      | Some captured =>
          if (0 <=? index) && (index <? totalTasks)
             && (totalTasks <=? Z.of_nat (List.length captured))
          then match allDefined
                       (onPanResponderRelease index totalTasks dropPosition captured ts) with
               | Some ts' => next ts'
               | None => None
               end
          else None
      | None => None
      end
  | DoClearAll => next []
  end.

Fixpoint performAll (acts : list action) (h : history) : option history :=
  match acts with
  | [] => Some h
  | a :: acts' =>
      match perform h a with
      | Some h' => performAll acts' h'
      | None => None
      end
  end.

(** The store when the rows are first shown, after [loadData]: the list
    it holds, no row rendered before. *)
Definition startingWith (ts0 : list task) : history := (ts0, []).

(** A task has the [id] and the [createdAt] that one of the adds among
    [acts] read from the clock. *)
Definition addedBy (acts : list action) (t : task) : Prop :=
  exists clk newTask prio selectedDate,
    In (DoAdd clk newTask prio selectedDate) acts
    /\ id t = now_id clk /\ createdAt t = now_created clk.

(** On a store that starts with one task: two adds, a deletion of the
    first task added, and then a drag of the second task's row one
    position down, whose handler is the one of the render after the
    second add, one render back, where the row was the first of three. *)
Definition staleDragHistory : list action :=
  [ DoAdd (at_instant 1) "first" low 0;
    DoAdd (at_instant 2) "second" high 0;
    DoDelete 1;
    DoRelease 1 0 3 1 ].

(** On a store that starts with one task: an add, an add and an edit
    that are rejected for their blank texts, an edit, a second add, the
    deletion of the first task added, and a drag of the second task's row
    with the handler of its first render, which brings the deleted task
    back. *)
Definition editDragHistory : list action :=
  [ DoAdd (at_instant 5) "x" low 9;
    DoAdd (at_instant 6) "   " low 9;
    DoSaveEdit 5 " ";
    DoSaveEdit 5 " y ";
    DoAdd (at_instant 7) "z" high 0;
    DoDelete 5;
    DoRelease 1 0 3 1 ].

Definition editDragEnd : history :=
  ([mkTask 5 " y " false 5 low (Some 9); mkTask 7 "z" false 7 high None; taskD],
   [ [mkTask 7 "z" false 7 high None; taskD];
     [mkTask 7 "z" false 7 high None; mkTask 5 " y " false 5 low (Some 9); taskD];
     [mkTask 5 " y " false 5 low (Some 9); taskD];
     [mkTask 5 "x" false 5 low (Some 9); taskD];
     [mkTask 5 "x" false 5 low (Some 9); taskD];
     [mkTask 5 "x" false 5 low (Some 9); taskD];
     [taskD] ]).

(** The end of [staleDragHistory]: the deleted task is back. *)
Definition staleDragEnd : history :=
  ([mkTask 1 "first" false 1 low None; mkTask 2 "second" false 2 high None; taskD],
   [ [mkTask 2 "second" false 2 high None; taskD];
     [mkTask 2 "second" false 2 high None; mkTask 1 "first" false 1 low None; taskD];
     [mkTask 1 "first" false 1 low None; taskD];
     [taskD] ]).



(** A task that [JSON.stringify] and [loadData] carry over unchanged. *)
Definition persistable (t : task) : Prop :=
  Json.safeInt (id t)
  /\ IsoDate.validTime (createdAt t)
  /\ match dueDate t with
     | Some d => IsoDate.validTime d
     | None => True
     end.

(** A string between double quotes. *)
Definition quoted (s : string) : string :=
  String "034" (s ++ String "034" EmptyString)%string.

(** A tasks record as another program could have written it: white space
    between the tokens, the properties in another order, an escape in the
    text. *)
Definition foreignRecord : string :=
  ("[ { " ++ quoted "text" ++ " : " ++ quoted "tea \u0026 cake" ++ ", "
   ++ quoted "id" ++ " : 42, "
   ++ quoted "dueDate" ++ " : null, "
   ++ quoted "priority" ++ " : " ++ quoted "high" ++ ", "
   ++ quoted "createdAt" ++ " : " ++ quoted "2024-02-29T12:00:00.000Z" ++ ", "
   ++ quoted "completed" ++ " : true } ]")%string.

Definition foreignStorage : Persist.storage :=
  Persist.setItem "@theme" "light" (Persist.setItem "@tasks" foreignRecord Persist.emptyStorage).

(** A tasks record whose [createdAt] is not a date string: [new Date]
    makes an invalid date of it, which the embedding leaves out. *)
Definition undatedRecord : string :=
  ("[{" ++ quoted "id" ++ ":42,"
   ++ quoted "text" ++ ":" ++ quoted "tea" ++ ","
   ++ quoted "completed" ++ ":false,"
   ++ quoted "createdAt" ++ ":" ++ quoted "garbage" ++ ","
   ++ quoted "priority" ++ ":" ++ quoted "high" ++ ","
   ++ quoted "dueDate" ++ ":null}]")%string.

Definition undatedStorage : Persist.storage :=
  Persist.setItem "@tasks" undatedRecord Persist.emptyStorage.

(** * Verified properties *)

(** ** Trimming *)

Lemma trimEnd_empty (s : string) :
  JsString.trimEnd s = EmptyString <-> blank s = true.
Proof.
  induction s as [|c r IH]; simpl.
  - tauto.
  - destruct (JsString.trimEnd r) eqn:E.
    + destruct (JsString.isWhiteSpace c); simpl.
      * split; intros _; [apply IH|]; reflexivity.
      * split; discriminate.
    + split; [discriminate|].
      intros H. apply andb_true_iff in H. destruct H as [_ H].
      apply IH in H. discriminate.
Qed.

Lemma trimStart_blank (s : string) :
  blank (JsString.trimStart s) = blank s.
Proof.
  induction s as [|c r IH]; simpl; [reflexivity|].
  destruct (JsString.isWhiteSpace c) eqn:E; simpl; [exact IH|].
  rewrite E. reflexivity.
Qed.

(** The emptiness check [s.trim()] fails exactly on the strings made of
    white space only. *)
Lemma trim_truthy (s : string) :
  JsString.truthy (JsString.trim s) = negb (blank s).
Proof.
  unfold JsString.trim.
  destruct (JsString.trimEnd (JsString.trimStart s)) eqn:E; simpl.
  - apply trimEnd_empty in E. rewrite trimStart_blank in E. rewrite E. reflexivity.
  - destruct (blank s) eqn:B; [|reflexivity].
    rewrite <- trimStart_blank in B. apply trimEnd_empty in B. congruence.
Qed.

(** ** Adding *)

(** C2.  [addTask] leaves the list as it is when the trimmed text is
    empty; otherwise it puts exactly one new task in front of the unchanged
    list, with the text as given, not completed, the given priority,
    [createdAt] the clock reading of its [new Date()], and [dueDate] the
    selected date when that is strictly later than the clock reading of
    the comparison, [null] otherwise. *)
Theorem addTask_spec (clk : clock) (newTask : string) (prio : Priority)
    (selectedDate : Z) (ts : list task) :
  if JsString.truthy (JsString.trim newTask) then
    exists t : task,
      addTask clk newTask prio selectedDate ts = t :: ts
      /\ text t = newTask
      /\ completed t = false
      /\ priority t = prio
      /\ createdAt t = now_created clk
      /\ dueDate t = (if now_due clk <? selectedDate then Some selectedDate else None)
  else addTask clk newTask prio selectedDate ts = ts.
Proof.
  unfold addTask.
  destruct (JsString.truthy (JsString.trim newTask)).
  - eexists. split; [reflexivity|]. simpl. repeat split; reflexivity.
  - reflexivity.
Qed.

(** With a clock that stands still during the call, "now" is one instant. *)
Corollary addTask_at_instant (now : Z) (newTask : string) (prio : Priority)
    (selectedDate : Z) (ts : list task) :
  blank newTask = false ->
  addTask (at_instant now) newTask prio selectedDate ts
  = mkTask now newTask false now prio
      (if now <? selectedDate then Some selectedDate else None) :: ts.
Proof.
  intros B. unfold addTask. rewrite trim_truthy, B. reflexivity.
Qed.

Example addTask_empty_text (clk : clock) (ts : list task) :
  addTask clk EmptyString medium 0 ts = ts /\ addTask clk "   " medium 0 ts = ts.
Proof. split; reflexivity. Qed.

(** C10.  When the trimmed text is not empty, the new task carries the
    text exactly as typed, surrounding white space included. *)
Theorem addTask_keeps_text_untrimmed (clk : clock) (newTask : string)
    (prio : Priority) (selectedDate : Z) (ts : list task) :
  JsString.trim newTask <> EmptyString ->
  exists t : task,
    addTask clk newTask prio selectedDate ts = t :: ts /\ text t = newTask.
Proof.
  intros H. unfold addTask.
  destruct (JsString.trim newTask) eqn:E; [congruence|].
  simpl. eexists. split; reflexivity.
Qed.

Lemma addTask_keeps_text_untrimmed_witness :
  JsString.trim "  x  " <> EmptyString
  /\ exists t : task,
       addTask (at_instant 1700000000000) "  x  " medium 0 [] = [t]
       /\ text t = "  x  "%string.
Proof.
  split.
  - simpl. discriminate.
  - apply (addTask_keeps_text_untrimmed (at_instant 1700000000000) "  x  " medium 0 []).
    simpl. discriminate.
Defined.

(** ** Updating one task *)

Section UpdateById.
Variable taskId : Z.
Variable f : task -> task.

Let upd (t : task) : task := if id t =? taskId then f t else t.

Lemma update_absent (ts : list task) :
  hasId taskId ts = false -> map upd ts = ts.
Proof.
  induction ts as [|t ts IH]; simpl; [reflexivity|].
  intros H. apply orb_false_iff in H. destruct H as [Ht Hts].
  unfold upd at 1. rewrite Ht, (IH Hts). reflexivity.
Qed.

Hypothesis f_keeps_id : forall t, id (f t) = id t.

Lemma update_ids (ts : list task) : map id (map upd ts) = map id ts.
Proof.
  rewrite map_map. apply map_ext. intros t. unfold upd.
  destruct (id t =? taskId); [apply f_keeps_id | reflexivity].
Qed.

Lemma update_framed (same : task -> task -> Prop) (ts : list task) :
  (forall t, same t t) -> (forall t, same t (f t)) ->
  framed same taskId ts (map upd ts).
Proof.
  intros Hrefl Hf. unfold framed. split; [apply length_map|].
  split; [apply update_ids|].
  induction ts as [|t ts IH]; simpl; constructor; [|exact IH].
  unfold upd. destruct (id t =? taskId) eqn:E.
  - split; [apply Hf|]. intros Hne. apply Z.eqb_eq in E. contradiction.
  - split; [apply Hrefl | reflexivity].
Qed.
End UpdateById.

(** C9.  [toggleTask], [editTask], [updateTaskPriority] and
    [updateTaskDueDate] keep the length of the list, the ids and their
    order; they leave every task with another id as it is, and change in
    a task with the given id nothing but [completed], [text], [priority]
    and [dueDate] respectively. *)
Theorem updates_are_framed (taskId : Z) (newText : string) (newPriority : Priority)
    (newDate : Z) (ts : list task) :
  framed sameButCompleted taskId ts (fst (toggleTask taskId ts))
  /\ framed sameButText taskId ts (editTask taskId newText ts)
  /\ framed sameButPriority taskId ts (updateTaskPriority taskId newPriority ts)
  /\ framed sameButDueDate taskId ts (updateTaskDueDate taskId newDate ts).
Proof.
  split; [|split; [|split]].
  - apply (update_framed taskId (fun t => with_completed (negb (completed t)) t));
      intros t; repeat split.
  - apply (update_framed taskId (with_text newText)); intros t; repeat split.
  - apply (update_framed taskId (with_priority newPriority)); intros t; repeat split.
  - apply (update_framed taskId (with_dueDate (Some newDate))); intros t; repeat split.
Qed.

(** ** Toggling and the celebration *)

Lemma toggle_completes_all (taskId : Z) (ts : list task) :
  hasId taskId ts = true ->
  allCompleted (fst (toggleTask taskId ts)) = true ->
  allCompleted ts = false.
Proof.
  unfold toggleTask, allCompleted, hasId. simpl.
  induction ts as [|t ts IH]; simpl; [discriminate|].
  intros H A. apply andb_true_iff in A. destruct A as [At Ats].
  destruct (id t =? taskId) eqn:E; simpl in *.
  - apply negb_true_iff in At. rewrite At. reflexivity.
  - rewrite (IH H Ats). apply andb_false_r.
Qed.

(** C3, as the code has it.  [toggleTask] celebrates exactly when every
    task of the updated list is completed.  When the list holds a task
    with the toggled id, that is exactly when the call takes the store
    from "not all completed" to "all completed".  When it holds none, the
    list is unchanged and the celebration is signalled exactly when every
    task was completed already (which includes the empty list). *)
Theorem toggleTask_celebration (taskId : Z) (ts : list task) :
  snd (toggleTask taskId ts) = allCompleted (fst (toggleTask taskId ts))
  /\ (if hasId taskId ts
      then snd (toggleTask taskId ts)
           = negb (allCompleted ts) && allCompleted (fst (toggleTask taskId ts))
      else fst (toggleTask taskId ts) = ts
           /\ snd (toggleTask taskId ts) = allCompleted ts).
Proof.
  split; [reflexivity|].
  destruct (hasId taskId ts) eqn:H.
  - destruct (allCompleted (fst (toggleTask taskId ts))) eqn:A.
    + rewrite (toggle_completes_all taskId ts H A). exact A.
    + rewrite andb_false_r. exact A.
  - assert (E : fst (toggleTask taskId ts) = ts).
    { unfold toggleTask. simpl. apply update_absent. exact H. }
    split; [exact E|].
    change (snd (toggleTask taskId ts)) with (allCompleted (fst (toggleTask taskId ts))).
    rewrite E. reflexivity.
Qed.

(** C3, as stated, fails: with the single task of id 1 already completed,
    toggling the absent id 2 changes nothing, so there is no transition
    from "not all completed" to "all completed", and yet the celebration is
    signalled. *)
Lemma toggleTask_celebrates_without_transition :
  hasId 2 completedStore = false
  /\ ~ (snd (toggleTask 2 completedStore) = true
        <-> allCompleted completedStore = false
            /\ allCompleted (fst (toggleTask 2 completedStore)) = true).
Proof.
  split; [reflexivity|].
  intros [H _]. destruct (H eq_refl) as [H1 _]. discriminate.
Qed.

(** ** Editing *)

(** C5.  [saveEdit] replaces the text of the tasks with the row's id by
    the new text when the trimmed new text is not empty, leaving their
    other properties and the other tasks as they are; otherwise it changes
    nothing and stays in editing mode. *)
Theorem saveEdit_spec (taskId : Z) (newText : string) (ts : list task) :
  if JsString.truthy (JsString.trim newText) then
    snd (saveEdit taskId newText ts) = true
    /\ Forall2 (fun t t' =>
                 if id t =? taskId
                 then text t' = newText
                      /\ id t' = id t /\ completed t' = completed t
                      /\ createdAt t' = createdAt t /\ priority t' = priority t
                      /\ dueDate t' = dueDate t
                 else t' = t)
               ts (fst (saveEdit taskId newText ts))
  else saveEdit taskId newText ts = (ts, false).
Proof.
  unfold saveEdit.
  destruct (JsString.truthy (JsString.trim newText)); [|reflexivity].
  split; [reflexivity|]. cbn [fst]. unfold editTask.
  induction ts as [|t ts IH]; cbn [map]; constructor; [|exact IH].
  destruct (id t =? taskId); [|reflexivity].
  cbn [with_text text id completed createdAt priority dueDate].
  split; [reflexivity|]. split; [reflexivity|]. split; [reflexivity|].
  split; [reflexivity|]. split; reflexivity.
Qed.

(** The guard is [saveEdit]'s: [editTask] itself stores any text. *)
Remark editTask_unguarded (t : task) :
  editTask (id t) EmptyString [t] = [with_text EmptyString t].
Proof.
  unfold editTask. simpl. rewrite Z.eqb_refl. reflexivity.
Qed.

(** ** The filtered view *)

(** C4.  With the filter [active] the view is the not completed tasks,
    with [completed] the completed ones, in their order and whatever the
    query; only with [all] does the query count, and then the view is the
    tasks whose lower-cased text includes the lower-cased query, or every
    task when the query is empty. *)
Theorem filteredTasks_spec (searchQuery : string) (ts : list task) :
  filteredTasks "active" searchQuery ts = filter (fun t => negb (completed t)) ts
  /\ filteredTasks "completed" searchQuery ts = filter completed ts
  /\ filteredTasks "all" searchQuery ts
     = (if JsString.truthy searchQuery
        then filter (fun t => JsString.includes (JsString.toLowerCase (text t))
                                                (JsString.toLowerCase searchQuery)) ts
        else ts).
Proof.
  unfold filteredTasks. simpl. repeat split.
  destruct (JsString.truthy searchQuery); [reflexivity|].
  induction ts as [|t ts IH]; simpl; [reflexivity|].
  rewrite IH. reflexivity.
Qed.

Lemma prefix_iff (n h : string) :
  prefix n h = true <-> exists b, h = (n ++ b)%string.
Proof.
  revert h. induction n as [|c n IH]; intros h.
  - split; [intros _; exists h; reflexivity | intros _; destruct h; reflexivity].
  - destruct h as [|c' h]; simpl.
    + split; [discriminate | intros [b Hb]; discriminate].
    + destruct (ascii_dec c c') as [->|Hne].
      * split.
        -- intros H. apply IH in H. destruct H as [b Hb]. exists b. congruence.
        -- intros [b Hb]. apply IH. exists b. congruence.
      * split; [discriminate | intros [b Hb]; congruence].
Qed.

Lemma includes_unfold (h n : string) :
  JsString.includes h n
  = if prefix n h then true
    else match h with
         | EmptyString => false
         | String _ r => JsString.includes r n
         end.
Proof. destruct h; reflexivity. Qed.

(** [includes] is containment as a contiguous substring. *)
Lemma includes_iff (h n : string) :
  JsString.includes h n = true <-> exists a b, h = (a ++ n ++ b)%string.
Proof.
  induction h as [|c h IH]; rewrite includes_unfold.
  - destruct (prefix n EmptyString) eqn:P.
    + split; [|reflexivity]. intros _. apply prefix_iff in P.
      destruct P as [b Hb]. exists EmptyString, b. exact Hb.
    + split; [discriminate|]. intros [a [b H]].
      destruct a; [|discriminate].
      assert (prefix n EmptyString = true) by (apply prefix_iff; exists b; exact H).
      congruence.
  - destruct (prefix n (String c h)) eqn:P.
    + split; [|reflexivity]. intros _. apply prefix_iff in P.
      destruct P as [b Hb]. exists EmptyString, b. exact Hb.
    + rewrite IH. split.
      * intros [a [b H]]. exists (String c a), b. simpl. congruence.
      * intros [a [b H]]. destruct a as [|c' a].
        -- assert (prefix n (String c h) = true) by (apply prefix_iff; exists b; exact H).
           congruence.
        -- simpl in H. exists a, b. congruence.
Qed.

(** ** Reordering *)

Section Positions.
Context {A : Type}.

Lemma removeAt_firstn_skipn (i : nat) (l : list A) :
  removeAt i l = firstn i l ++ skipn (S i) l.
Proof.
  revert i. induction l as [|x l IH]; intros [|i]; simpl; try reflexivity.
  rewrite IH. reflexivity.
Qed.

Lemma insertAt_firstn_skipn (i : nat) (x : A) (l : list A) :
  insertAt i x l = firstn i l ++ x :: skipn i l.
Proof.
  revert l. induction i as [|i IH]; intros [|y l]; simpl; try reflexivity.
  rewrite IH. reflexivity.
Qed.

Lemma nth_error_insertAt (i : nat) (x : A) (l : list A) :
  (i <= List.length l)%nat -> nth_error (insertAt i x l) i = Some x.
Proof.
  revert l. induction i as [|i IH]; intros [|y l] H; simpl in *; try reflexivity.
  - lia.
  - apply IH. lia.
Qed.

Lemma removeAt_insertAt (i : nat) (x : A) (l : list A) :
  (i <= List.length l)%nat -> removeAt i (insertAt i x l) = l.
Proof.
  revert l. induction i as [|i IH]; intros [|y l] H; simpl in *; try reflexivity.
  - lia.
  - rewrite IH by lia. reflexivity.
Qed.

Lemma length_removeAt (i : nat) (l : list A) :
  (i < List.length l)%nat -> S (List.length (removeAt i l)) = List.length l.
Proof.
  revert i. induction l as [|x l IH]; intros [|i] H; simpl in *; try lia.
  rewrite IH by lia. reflexivity.
Qed.

Lemma spliceStart_in_range (start : Z) (l : list A) :
  0 <= start <= Z.of_nat (List.length l) ->
  spliceStart start l = Z.to_nat start.
Proof.
  intros H. unfold spliceStart.
  destruct (start <? 0) eqn:E; [apply Z.ltb_lt in E; lia|].
  f_equal. lia.
Qed.
End Positions.

(** C6.  For indices within the list, [reorderTasks] takes the task at
    [fromIndex] out and puts it back at position [toIndex] of what is
    left: the moved task ends at [toIndex], and the other tasks keep
    their order. *)
Theorem reorderTasks_in_bounds (fromIndex toIndex : Z) (ts : list task) :
  0 <= fromIndex < Z.of_nat (List.length ts) ->
  0 <= toIndex < Z.of_nat (List.length ts) ->
  exists (moved : task) (result : list task),
    nth_error ts (Z.to_nat fromIndex) = Some moved
    /\ reorderTasks fromIndex toIndex ts = map Some result
    /\ result = insertAt (Z.to_nat toIndex) moved (removeAt (Z.to_nat fromIndex) ts)
    /\ nth_error result (Z.to_nat toIndex) = Some moved
    /\ removeAt (Z.to_nat toIndex) result = removeAt (Z.to_nat fromIndex) ts.
Proof.
  intros Hf Ht.
  set (i := Z.to_nat fromIndex). set (j := Z.to_nat toIndex).
  assert (Hi : (i < List.length ts)%nat) by (subst i; lia).
  destruct (nth_error ts i) as [moved|] eqn:Hm;
    [|apply nth_error_None in Hm; lia].
  assert (Hlen : S (List.length (removeAt i ts)) = List.length ts)
    by (apply length_removeAt; exact Hi).
  assert (Hj : (j <= List.length (removeAt i ts))%nat) by (subst j; lia).
  exists moved, (insertAt j moved (removeAt i ts)).
  split; [reflexivity|]. split; [|split; [reflexivity|split]].
  - unfold reorderTasks, spliceDelete1.
    rewrite spliceStart_in_range by (rewrite length_map; lia).
    fold i.
    assert (Hsk : firstn 1 (skipn i (map Some ts)) = [Some moved]).
    { rewrite skipn_map, firstn_map.
      apply nth_error_split in Hm. destruct Hm as [l1 [l2 [E L]]].
      rewrite E, <- L, skipn_app, Nat.sub_diag, skipn_all. reflexivity. }
    rewrite Hsk.
    assert (Hrem : firstn i (map Some ts) ++ skipn (S i) (map Some ts)
                   = map Some (removeAt i ts)).
    { rewrite removeAt_firstn_skipn, map_app, firstn_map, skipn_map. reflexivity. }
    rewrite Hrem. unfold spliceInsert.
    rewrite spliceStart_in_range by (rewrite length_map; lia).
    fold j.
    rewrite insertAt_firstn_skipn, map_app, firstn_map. simpl.
    rewrite skipn_map. reflexivity.
  - apply nth_error_insertAt. exact Hj.
  - apply removeAt_insertAt. exact Hj.
Qed.

Lemma reorderTasks_in_bounds_witness :
  exists (moved : task) (result : list task),
    nth_error [taskA; taskB; taskC; taskD] (Z.to_nat 0) = Some moved
    /\ reorderTasks 0 2 [taskA; taskB; taskC; taskD] = map Some result
    /\ result = insertAt (Z.to_nat 2) moved
                 (removeAt (Z.to_nat 0) [taskA; taskB; taskC; taskD])
    /\ nth_error result (Z.to_nat 2) = Some moved
    /\ removeAt (Z.to_nat 2) result = removeAt (Z.to_nat 0) [taskA; taskB; taskC; taskD].
Proof.
  apply (reorderTasks_in_bounds 0 2 [taskA; taskB; taskC; taskD]); simpl; lia.
Defined.

(** [reorder(0, 2)] on [[A,B,C,D]] yields [[B,C,A,D]]. *)
Example reorderTasks_0_2 (A B C D : task) :
  reorderTasks 0 2 [A; B; C; D] = [Some B; Some C; Some A; Some D].
Proof. reflexivity. Qed.

(** Out of range the array gets an [undefined] slot. *)
Example reorderTasks_from_past_end (A B : task) :
  reorderTasks 2 0 [A; B] = [None; Some A; Some B].
Proof. reflexivity. Qed.

(** ** Identifiers *)

Lemma NoDup_ids_filter (p : task -> bool) (ts : list task) :
  NoDup (map id ts) -> NoDup (map id (filter p ts)).
Proof.
  induction ts as [|t ts IH]; simpl; intros H; [constructor|].
  inversion H as [|x l Hnotin Hnd]; subst.
  destruct (p t); simpl; [|apply IH; exact Hnd].
  constructor; [|apply IH; exact Hnd].
  intros Hin. apply Hnotin.
  apply in_map_iff in Hin. destruct Hin as [u [Hu Hin]].
  apply filter_In in Hin. destruct Hin as [Hin _].
  apply in_map_iff. exists u. split; assumption.
Qed.

Lemma ids_filter_incl (p : task -> bool) (ts : list task) (x : Z) :
  In x (map id (filter p ts)) -> In x (map id ts).
Proof.
  intros Hin. apply in_map_iff in Hin. destruct Hin as [u [Hu Hin]].
  apply filter_In in Hin. destruct Hin as [Hin _].
  apply in_map_iff. exists u. split; assumption.
Qed.

(** The id [addTask] assigns is the clock reading, whether or not a task
    of the store carries it already. *)
Lemma addTask_id (clk : clock) (newTask : string) (prio : Priority)
    (selectedDate : Z) (ts : list task) :
  JsString.truthy (JsString.trim newTask) = true ->
  map id (addTask clk newTask prio selectedDate ts) = now_id clk :: map id ts.
Proof.
  intros H. unfold addTask. rewrite H. reflexivity.
Qed.

Lemma run_keeps_ids_distinct (ops : list op) (ts : list task) :
  NoDup (map id ts) ->
  NoDup (idReadings ops) ->
  (forall x, In x (idReadings ops) -> ~ In x (map id ts)) ->
  NoDup (map id (run ops ts)).
Proof.
  revert ts. induction ops as [|o ops IH]; intros ts Hts Hops Hfresh; simpl.
  - exact Hts.
  - destruct o as [clk newTask prio selectedDate | taskId]; simpl in *.
    + destruct (JsString.truthy (JsString.trim newTask)) eqn:E.
      * inversion Hops as [|x l Hnotin Hnd]; subst.
        apply IH.
        -- rewrite (addTask_id _ _ _ _ _ E). constructor; [|exact Hts].
           apply Hfresh. left. reflexivity.
        -- exact Hnd.
        -- intros x Hx. rewrite (addTask_id _ _ _ _ _ E). simpl.
           intros [Heq | Hin].
           ++ subst x. contradiction.
           ++ apply (Hfresh x); [right; exact Hx | exact Hin].
      * unfold addTask. rewrite E. apply IH; assumption.
    + apply IH.
      * apply NoDup_ids_filter. exact Hts.
      * exact Hops.
      * intros x Hx Hin. apply (Hfresh x Hx).
        apply ids_filter_incl in Hin. exact Hin.
Qed.

(** C1, as the code has it.  The id of a new task is the [Date.now()]
    reading of its [addTask] call.  Along a sequence of adds and removes
    from the empty store, the ids of the tasks in the store are pairwise
    distinct provided the readings of the adds that pass the emptiness
    check are pairwise distinct. *)
Theorem ids_distinct_when_readings_distinct (ops : list op) :
  NoDup (idReadings ops) ->
  NoDup (map id (run ops [])).
Proof.
  intros H. apply run_keeps_ids_distinct.
  - constructor.
  - exact H.
  - intros x _ [].
Qed.

Lemma ids_distinct_when_readings_distinct_witness :
  NoDup (idReadings distinctHistory) /\ NoDup (map id (run distinctHistory [])).
Proof.
  assert (H : NoDup (idReadings distinctHistory)).
  { simpl. repeat constructor; simpl; lia. }
  split; [exact H|].
  apply (ids_distinct_when_readings_distinct distinctHistory H).
Defined.

(** C1, as stated, fails: two adds that read the same millisecond from the
    clock give two tasks the same id. *)
Lemma same_millisecond_duplicates_id :
  ~ NoDup (map id (run sameMillisecondHistory [])).
Proof.
  simpl. intros H. inversion H as [|x l Hnotin _]; subst.
  apply Hnotin. left. reflexivity.
Qed.

(** ** Clearing everything *)



(** ** Decimal digits *)

Module DigitsFacts.
Import Digits.

Lemma digit_cases (d : Z) :
  0 <= d <= 9 ->
  d = 0 \/ d = 1 \/ d = 2 \/ d = 3 \/ d = 4 \/ d = 5 \/ d = 6 \/ d = 7 \/ d = 8 \/ d = 9.
Proof. lia. Qed.

Ltac each_digit d H :=
  let C := fresh "C" in
  pose proof (digit_cases d H) as C;
  repeat (destruct C as [C|C]; [subst d|]); [..|subst d].

Lemma digitVal_digitChar (d : Z) :
  0 <= d <= 9 -> digitVal (digitChar d) = Some d.
Proof. intros H. each_digit d H; reflexivity. Qed.

Lemma putDigits_head (n : nat) (v : Z) (k : string) :
  0 <= v ->
  putDigits (S n) v k
  = String (digitChar ((v / 10 ^ Z.of_nat n) mod 10)) (putDigits n (v mod 10 ^ Z.of_nat n) k).
Proof.
  revert v k. induction n as [|n IH]; intros v k Hv.
  - change (10 ^ Z.of_nat 0) with 1. rewrite Z.div_1_r, Z.mod_1_r. reflexivity.
  - change (putDigits (S (S n)) v k)
      with (putDigits (S n) (v / 10) (String (digitChar (v mod 10)) k)).
    rewrite IH by (apply Z.div_pos; lia).
    change (putDigits (S n) (v mod 10 ^ Z.of_nat (S n)) k)
      with (putDigits n ((v mod 10 ^ Z.of_nat (S n)) / 10)
              (String (digitChar ((v mod 10 ^ Z.of_nat (S n)) mod 10)) k)).
    assert (P : 10 ^ Z.of_nat (S n) = 10 * 10 ^ Z.of_nat n).
    { rewrite Nat2Z.inj_succ, Z.pow_succ_r by lia. reflexivity. }
    assert (Hp : 0 < 10 ^ Z.of_nat n) by (apply Z.pow_pos_nonneg; lia).
    rewrite P.
    rewrite Z.div_div by lia.
    rewrite (Z.rem_mul_r v 10 (10 ^ Z.of_nat n)) by lia.
    rewrite (Z.mul_comm 10 ((v / 10) mod 10 ^ Z.of_nat n)).
    rewrite Z.mod_add, Z.mod_mod by lia.
    rewrite Z.div_add by lia.
    rewrite (Z.div_small (v mod 10) 10) by (apply Z.mod_pos_bound; lia).
    reflexivity.
Qed.

Lemma readDigits_putDigits (n m : nat) (acc v : Z) (k : string) :
  0 <= v < 10 ^ Z.of_nat n ->
  readDigits (n + m) acc (putDigits n v k)
  = readDigits m (acc * 10 ^ Z.of_nat n + v) k.
Proof.
  revert m acc v k. induction n as [|n IH]; intros m acc v k Hv.
  - simpl in *. f_equal. lia.
  - assert (P : 10 ^ Z.of_nat (S n) = 10 * 10 ^ Z.of_nat n).
    { rewrite Nat2Z.inj_succ, Z.pow_succ_r by lia. reflexivity. }
    rewrite P in *.
    change (putDigits (S n) v k)
      with (putDigits n (v / 10) (String (digitChar (v mod 10)) k)).
    replace (S n + m)%nat with (n + S m)%nat by lia.
    rewrite IH by (split; [apply Z.div_pos; lia | apply Z.div_lt_upper_bound; lia]).
    cbn [readDigits]. rewrite digitVal_digitChar by (pose proof (Z.mod_pos_bound v 10); lia).
    f_equal. pose proof (Z.div_mod v 10 ltac:(lia)). nia.
Qed.

Lemma readDigits_exact (n : nat) (v : Z) (k : string) :
  0 <= v < 10 ^ Z.of_nat n ->
  readDigits n 0 (putDigits n v k) = Some (v, k).
Proof.
  intros H. pose proof (readDigits_putDigits n 0 0 v k H) as R.
  rewrite Nat.add_0_r in R. rewrite R. reflexivity.
Qed.

Lemma readNat_putDigits (n : nat) (acc v : Z) (k : string) :
  0 <= v < 10 ^ Z.of_nat n ->
  readNat acc (putDigits n v k) = readNat (acc * 10 ^ Z.of_nat n + v) k.
Proof.
  revert acc v k. induction n as [|n IH]; intros acc v k Hv.
  - simpl in *. f_equal. lia.
  - assert (P : 10 ^ Z.of_nat (S n) = 10 * 10 ^ Z.of_nat n).
    { rewrite Nat2Z.inj_succ, Z.pow_succ_r by lia. reflexivity. }
    rewrite P in *.
    change (putDigits (S n) v k)
      with (putDigits n (v / 10) (String (digitChar (v mod 10)) k)).
    rewrite IH by (split; [apply Z.div_pos; lia | apply Z.div_lt_upper_bound; lia]).
    cbn [readNat]. rewrite digitVal_digitChar by (pose proof (Z.mod_pos_bound v 10); lia).
    f_equal. pose proof (Z.div_mod v 10 ltac:(lia)). nia.
Qed.

Lemma readNat_stops (acc : Z) (k : string) :
  startsWithDigit k = false -> readNat acc k = (acc, k).
Proof.
  destruct k as [|c r]; simpl; [reflexivity|].
  destruct (digitVal c); [discriminate | reflexivity].
Qed.

Lemma countDigits_bounds (fuel : nat) (v : Z) :
  0 <= v < 2 ^ Z.of_nat (S fuel) ->
  (0 < countDigits fuel v)%nat
  /\ v < 10 ^ Z.of_nat (countDigits fuel v)
  /\ (0 < v -> 10 ^ Z.of_nat (pred (countDigits fuel v)) <= v).
Proof.
  revert v. induction fuel as [|fuel IH]; intros v Hv.
  - simpl in *. repeat split; lia.
  - cbn [countDigits]. destruct (v <? 10) eqn:E.
    + apply Z.ltb_lt in E. simpl. repeat split; lia.
    + apply Z.ltb_ge in E.
      assert (P : 2 ^ Z.of_nat (S (S fuel)) = 2 * 2 ^ Z.of_nat (S fuel)).
      { rewrite (Nat2Z.inj_succ (S fuel)), Z.pow_succ_r by lia. reflexivity. }
      assert (Hq : 0 <= v / 10 < 2 ^ Z.of_nat (S fuel)).
      { split; [apply Z.div_pos; lia | apply Z.div_lt_upper_bound; lia]. }
      destruct (IH (v / 10) Hq) as [Hc [Hu Hl]].
      set (c := countDigits fuel (v / 10)) in *.
      assert (Q : 10 ^ Z.of_nat (S c) = 10 * 10 ^ Z.of_nat c).
      { rewrite Nat2Z.inj_succ, Z.pow_succ_r by lia. reflexivity. }
      split; [lia|]. split.
      * rewrite Q. pose proof (Z.div_mod v 10 ltac:(lia)). pose proof (Z.mod_pos_bound v 10 ltac:(lia)). nia.
      * intros _. simpl pred.
        assert (Hv10 : 0 < v / 10) by (apply Z.div_str_pos; lia).
        specialize (Hl Hv10).
        destruct c as [|c']; [lia|]. simpl pred in Hl.
        assert (Q' : 10 ^ Z.of_nat (S c') = 10 * 10 ^ Z.of_nat c').
        { rewrite Nat2Z.inj_succ, Z.pow_succ_r by lia. reflexivity. }
        rewrite Q'. pose proof (Z.div_mod v 10 ltac:(lia)). pose proof (Z.mod_pos_bound v 10 ltac:(lia)). nia.
Qed.

Lemma numDigits_bounds (v : Z) :
  0 <= v ->
  exists n : nat,
    numDigits v = S n /\ v < 10 ^ Z.of_nat (S n) /\ (0 < v -> 10 ^ Z.of_nat n <= v).
Proof.
  intros Hv. unfold numDigits.
  assert (H : 0 <= v < 2 ^ Z.of_nat (S (Z.to_nat (Z.log2 v)))).
  { split; [exact Hv|].
    rewrite Nat2Z.inj_succ, Z2Nat.id by apply Z.log2_nonneg.
    destruct (Z.eq_dec v 0) as [->|Hne]; [reflexivity|].
    apply Z.log2_spec. lia. }
  destruct (countDigits_bounds _ v H) as [Hc [Hu Hl]].
  destruct (countDigits (Z.to_nat (Z.log2 v)) v) as [|n]; [lia|].
  exists n. repeat split; assumption.
Qed.

End DigitsFacts.

(** ** Calendar arithmetic *)

Module IsoDateFacts.
Import Digits DigitsFacts IsoDate.

Lemma DaysInYear_step (y : Z) :
  DayFromYear (y + 1) = DayFromYear y + DaysInYear y.
Proof.
  unfold DayFromYear, DaysInYear, isLeap.
  replace (y + 1 - 1970) with (y - 1970 + 1) by lia.
  replace (y + 1 - 1969) with (y - 1968) by lia.
  replace (y + 1 - 1901) with (y - 1900) by lia.
  replace (y + 1 - 1601) with (y - 1600) by lia.
  assert (A4 : (y - 1968) / 4 = (y - 1969) / 4 + (if y mod 4 =? 0 then 1 else 0)).
  { destruct (y mod 4 =? 0) eqn:E; rewrite ?Z.eqb_eq, ?Z.eqb_neq in E;
      Z.div_mod_to_equations; lia. }
  assert (A100 : (y - 1900) / 100 = (y - 1901) / 100 + (if y mod 100 =? 0 then 1 else 0)).
  { destruct (y mod 100 =? 0) eqn:E; rewrite ?Z.eqb_eq, ?Z.eqb_neq in E;
      Z.div_mod_to_equations; lia. }
  assert (A400 : (y - 1600) / 400 = (y - 1601) / 400 + (if y mod 400 =? 0 then 1 else 0)).
  { destruct (y mod 400 =? 0) eqn:E; rewrite ?Z.eqb_eq, ?Z.eqb_neq in E;
      Z.div_mod_to_equations; lia. }
  rewrite A4, A100, A400.
  assert (M1 : y mod 400 = 0 -> y mod 100 = 0) by (Z.div_mod_to_equations; lia).
  assert (M2 : y mod 100 = 0 -> y mod 4 = 0) by (Z.div_mod_to_equations; lia).
  destruct (y mod 4 =? 0) eqn:E4; destruct (y mod 100 =? 0) eqn:E100;
    destruct (y mod 400 =? 0) eqn:E400; cbn [negb];
    rewrite ?Z.eqb_eq, ?Z.eqb_neq in *; lia.
Qed.

Lemma DayFromYear_linear (y : Z) :
  146097 * (y - 1970) - 1000 <= 400 * DayFromYear y <= 146097 * (y - 1970) + 1000.
Proof. unfold DayFromYear. Z.div_mod_to_equations. lia. Qed.

(** [YearFromDay d] is the year whose days include [d]: the largest
    [y] with [DayFromYear y <= d]. *)
Lemma YearFromDay_spec (d : Z) :
  DayFromYear (YearFromDay d) <= d < DayFromYear (YearFromDay d + 1).
Proof.
  unfold YearFromDay.
  set (y0 := 1970 + 400 * d / 146097).
  assert (H0 : DayFromYear (y0 - 1) <= d < DayFromYear (y0 + 2)).
  { pose proof (DayFromYear_linear (y0 - 1)). pose proof (DayFromYear_linear (y0 + 2)).
    subst y0. Z.div_mod_to_equations. lia. }
  destruct (d <? DayFromYear y0) eqn:E1.
  - apply Z.ltb_lt in E1. replace (y0 - 1 + 1) with y0 by lia. lia.
  - apply Z.ltb_ge in E1.
    destruct (DayFromYear (y0 + 1) <=? d) eqn:E2.
    + apply Z.leb_le in E2. replace (y0 + 1 + 1) with (y0 + 2) by lia. lia.
    + apply Z.leb_gt in E2. lia.
Qed.

Lemma month_of_day (leap : bool) (dwy : Z) :
  0 <= dwy < (if leap then 366 else 365) ->
  0 <= MonthFromDayWithinYear leap dwy <= 11
  /\ monthStart leap (MonthFromDayWithinYear leap dwy) <= dwy
     < monthStart leap (MonthFromDayWithinYear leap dwy + 1).
Proof.
  intros H. unfold MonthFromDayWithinYear.
  destruct leap; cbn in *;
    repeat match goal with
           | |- context [dwy <? ?c] => destruct (Z.ltb_spec dwy c)
           end; cbn; lia.
Qed.

Lemma day_fields (d : Z) :
  let y := YearFromDay d in
  let dwy := d - DayFromYear y in
  let m := MonthFromDayWithinYear (isLeap y) dwy in
  0 <= m <= 11
  /\ 1 <= dwy - monthStart (isLeap y) m + 1 <= DaysInMonth (isLeap y) m
  /\ MakeDay y m (dwy - monthStart (isLeap y) m + 1) = d.
Proof.
  intros y dwy m.
  pose proof (YearFromDay_spec d) as Hy. fold y in Hy.
  rewrite DaysInYear_step in Hy. unfold DaysInYear in Hy.
  assert (Hd : 0 <= dwy < (if isLeap y then 366 else 365)).
  { subst dwy. destruct (isLeap y); lia. }
  destruct (month_of_day (isLeap y) dwy Hd) as [Hm Hs]. fold m in Hm, Hs.
  unfold DaysInMonth, MakeDay. repeat split; lia.
Qed.

Lemma time_fields (tw : Z) :
  0 <= tw < msPerDay ->
  0 <= tw / 3600000 <= 23
  /\ 0 <= (tw / 60000) mod 60 <= 59
  /\ 0 <= (tw / 1000) mod 60 <= 59
  /\ 0 <= tw mod 1000 <= 999
  /\ MakeTime (tw / 3600000) ((tw / 60000) mod 60) ((tw / 1000) mod 60) (tw mod 1000) = tw.
Proof.
  unfold msPerDay, MakeTime. intros H. Z.div_mod_to_equations. lia.
Qed.

Lemma year_range (t : Z) :
  validTime t -> -271822 <= YearFromDay (Day t) <= 275761.
Proof.
  unfold validTime, maxTime, Day, msPerDay. intros H.
  pose proof (YearFromDay_spec (t / 86400000)) as Hy.
  pose proof (DayFromYear_linear (YearFromDay (t / 86400000))) as L1.
  pose proof (DayFromYear_linear (YearFromDay (t / 86400000) + 1)) as L2.
  Z.div_mod_to_equations. lia.
Qed.

(** The calendar fields of a time value give the time value back. *)
Lemma timeOfFields_fieldsOfTime (t : Z) :
  validTime t -> timeOfFields (fieldsOfTime t) = Some t.
Proof.
  intros Hv. unfold timeOfFields, fieldsOfTime.
  cbn [year month date hours minutes seconds millis].
  destruct (day_fields (Day t)) as [Hm [Hd Hday]].
  assert (Htw : 0 <= TimeWithinDay t < msPerDay)
    by (apply Z.mod_pos_bound; reflexivity).
  destruct (time_fields (TimeWithinDay t) Htw) as [Hh [Hmi [Hs [Hms Htime]]]].
  set (y := YearFromDay (Day t)) in *.
  set (dwy := Day t - DayFromYear y) in *.
  set (m := MonthFromDayWithinYear (isLeap y) dwy) in *.
  replace (m + 1 - 1) with m by lia.
  rewrite Hday, Htime.
  assert (Ht : MakeDate (Day t) (TimeWithinDay t) = t).
  { unfold MakeDate, Day, TimeWithinDay.
    pose proof (Z.div_mod t msPerDay ltac:(discriminate)). lia. }
  rewrite Ht.
  assert (Hvb : validTimeb t = true).
  { unfold validTimeb. unfold validTime in Hv.
    apply andb_true_iff. split; apply Z.leb_le; lia. }
  rewrite Hvb.
  repeat match goal with
         | |- context [?a <=? ?b] =>
             let L := fresh in
             assert (L : (a <=? b) = true) by (apply Z.leb_le; lia);
             rewrite L; clear L
         end.
  reflexivity.
Qed.

Lemma digitChar_not_sign (d : Z) :
  0 <= d <= 9 ->
  Ascii.eqb (digitChar d) "+" = false /\ Ascii.eqb (digitChar d) "-" = false.
Proof. intros H. each_digit d H; split; reflexivity. Qed.

Lemma readYear_putYear (y : Z) (k : string) :
  -999999 <= y <= 999999 -> readYear (putYear y k) = Some (y, k).
Proof.
  intros H. unfold putYear.
  destruct ((0 <=? y) && (y <=? 9999)) eqn:E.
  - apply andb_true_iff in E. destruct E as [E1 E2].
    apply Z.leb_le in E1, E2.
    assert (R : readDigits 4 0 (putDigits 4 y k) = Some (y, k))
      by (apply readDigits_exact; simpl; lia).
    revert R. rewrite (putDigits_head 3 y k) by lia.
    set (h := (y / 10 ^ Z.of_nat 3) mod 10).
    assert (Hh : 0 <= h <= 9) by (subst h; pose proof (Z.mod_pos_bound (y / 10 ^ Z.of_nat 3) 10); lia).
    destruct (digitChar_not_sign h Hh) as [Hp Hn].
    intros R. unfold readYear. rewrite Hp, Hn. exact R.
  - destruct (y <? 0) eqn:N.
    + apply Z.ltb_lt in N. unfold readYear.
      change (Ascii.eqb "-" "+") with false. change (Ascii.eqb "-" "-") with true.
      cbv iota.
      rewrite readDigits_exact by (simpl; lia).
      destruct (- y =? 0) eqn:Z0; [apply Z.eqb_eq in Z0; lia|].
      rewrite Z.opp_involutive. reflexivity.
    + unfold readYear.
      change (Ascii.eqb "+" "+") with true. cbv iota.
      apply readDigits_exact. apply Z.ltb_ge in N. simpl. lia.
Qed.

(** [Date.parse] reads back what [toISOString] writes. *)
Lemma parseISO_toISOString (t : Z) :
  validTime t -> parseISO (toISOString t) = Some t.
Proof.
  intros Hv.
  pose proof (timeOfFields_fieldsOfTime t Hv) as Hf.
  pose proof (year_range t Hv) as Hy.
  destruct (day_fields (Day t)) as [Hm [Hd _]].
  assert (Htw : 0 <= TimeWithinDay t < msPerDay)
    by (apply Z.mod_pos_bound; reflexivity).
  destruct (time_fields (TimeWithinDay t) Htw) as [Hh [Hmi [Hs [Hms _]]]].
  assert (Hdim : DaysInMonth (isLeap (YearFromDay (Day t)))
                   (MonthFromDayWithinYear (isLeap (YearFromDay (Day t)))
                      (Day t - DayFromYear (YearFromDay (Day t)))) <= 31).
  { destruct (isLeap (YearFromDay (Day t)));
      set (m := MonthFromDayWithinYear _ _) in *;
      assert (C : m = 0 \/ m = 1 \/ m = 2 \/ m = 3 \/ m = 4 \/ m = 5 \/ m = 6
                  \/ m = 7 \/ m = 8 \/ m = 9 \/ m = 10 \/ m = 11) by lia;
      repeat (destruct C as [C|C]; [rewrite C; cbv; discriminate|]);
      rewrite C; cbv; discriminate. }
  unfold toISOString, putISO, parseISO.
  destruct (fieldsOfTime t) as [y mo d h mi s ms] eqn:F.
  unfold fieldsOfTime in F. injection F as Fy Fmo Fd Fh Fmi Fs Fms.
  cbn [year month date hours minutes seconds millis].
  rewrite readYear_putYear by lia.
  repeat (cbn [obind expect Ascii.eqb Bool.eqb andb];
          rewrite readDigits_exact by (simpl; lia)).
  cbn [obind expect Ascii.eqb Bool.eqb andb].
  exact Hf.
Qed.

Lemma toISOString_truthy (t : Z) :
  JsString.truthy (toISOString t) = true.
Proof.
  unfold toISOString, putISO, putYear.
  destruct ((0 <=? year (fieldsOfTime t)) && (year (fieldsOfTime t) <=? 9999));
    [|destruct (year (fieldsOfTime t) <? 0); reflexivity].
  reflexivity.
Qed.
End IsoDateFacts.

(** ** JSON text: reading back what was written *)

Module JsonFacts.
Import Digits DigitsFacts Json.

Lemma readChars_putChars (s k : string) :
  readChars (putChars s (String "034" k)) = Ok (s, k).
Proof.
  induction s as [|c s IH].
  - reflexivity.
  - cbn [putChars].
    destruct c as [[] [] [] [] [] [] [] []];
      cbn; rewrite IH; reflexivity.
Qed.

Lemma closes_facts (k : string) :
  closes k = true ->
  skipSpace k = k /\ startsWithDigit k = false /\ startsFraction k = false.
Proof.
  destruct k as [|c r]; [intros _; repeat split|].
  unfold closes. intros H.
  apply orb_true_iff in H. destruct H as [H|H];
    [apply orb_true_iff in H; destruct H as [H|H]|];
    apply Ascii.eqb_eq in H; subst c; repeat split.
Qed.

Lemma readMagnitude_putDigits (v : Z) (k : string) :
  0 <= v <= maxSafe -> closes k = true ->
  readMagnitude (putDigits (numDigits v) v k) = Ok (v, k).
Proof.
  intros Hv Hk.
  destruct (closes_facts k Hk) as [_ [Hd Hf]].
  destruct (numDigits_bounds v (proj1 Hv)) as [n [Hn [Hu Hl]]].
  rewrite Hn, putDigits_head by lia.
  assert (Hp : 0 < 10 ^ Z.of_nat n) by (apply Z.pow_pos_nonneg; lia).
  assert (P : 10 ^ Z.of_nat (S n) = 10 * 10 ^ Z.of_nat n).
  { rewrite Nat2Z.inj_succ, Z.pow_succ_r by lia. reflexivity. }
  assert (Hq : 0 <= v / 10 ^ Z.of_nat n <= 9).
  { split; [apply Z.div_pos; lia|].
    assert (v / 10 ^ Z.of_nat n < 10) by (apply Z.div_lt_upper_bound; lia). lia. }
  rewrite (Z.mod_small (v / 10 ^ Z.of_nat n) 10) by lia.
  unfold readMagnitude. rewrite digitVal_digitChar by lia.
  pose proof (Z.div_mod v (10 ^ Z.of_nat n) ltac:(lia)) as Hdm.
  pose proof (Z.mod_pos_bound v (10 ^ Z.of_nat n) Hp) as Hmb.
  destruct (v / 10 ^ Z.of_nat n =? 0) eqn:E.
  - apply Z.eqb_eq in E.
    assert (v = 0) by (destruct (Z.eq_dec v 0); [assumption | nia]).
    subst v. destruct n as [|n].
    + cbn [putDigits]. rewrite Hf, Hd. reflexivity.
    + exfalso. clear - Hn. unfold numDigits in Hn. simpl in Hn. discriminate.
  - rewrite readNat_putDigits by lia.
    replace (v / 10 ^ Z.of_nat n * 10 ^ Z.of_nat n + v mod 10 ^ Z.of_nat n) with v by lia.
    rewrite readNat_stops by exact Hd.
    rewrite Hf, Hd.
    destruct (v <=? maxSafe) eqn:L; [reflexivity | apply Z.leb_gt in L; lia].
Qed.

Lemma putDigits_starts_with_digit (n : nat) (v : Z) (k : string) :
  0 <= v ->
  exists d r, 0 <= d <= 9 /\ putDigits (S n) v k = String (digitChar d) r.
Proof.
  intros Hv. rewrite putDigits_head by exact Hv.
  eexists _, _. split; [|reflexivity].
  pose proof (Z.mod_pos_bound (v / 10 ^ Z.of_nat n) 10). lia.
Qed.

Lemma putNumber_head (n : Z) (k : string) :
  exists c r, putNumber n k = String c r /\ numeric c.
Proof.
  unfold putNumber. destruct (n <? 0) eqn:E.
  - eexists _, _. split; [reflexivity | left; reflexivity].
  - apply Z.ltb_ge in E.
    destruct (numDigits_bounds n E) as [m [Hm _]]. rewrite Hm.
    destruct (putDigits_starts_with_digit m n k E) as [d [r [Hd Hr]]].
    exists (digitChar d), r. split; [exact Hr | right; exists d; split; [exact Hd | reflexivity]].
Qed.

Lemma readNumber_putNumber (n : Z) (k : string) :
  safeInt n -> closes k = true ->
  readNumber (putNumber n k) = Ok (JNum n, k).
Proof.
  unfold safeInt. intros Hn Hk. unfold putNumber.
  destruct (n <? 0) eqn:E.
  - apply Z.ltb_lt in E. unfold readNumber.
    change (Ascii.eqb "-" "-") with true. cbv iota.
    rewrite readMagnitude_putDigits by (try exact Hk; lia).
    cbn [bind]. rewrite Z.opp_involutive. reflexivity.
  - apply Z.ltb_ge in E.
    pose proof (readMagnitude_putDigits n k ltac:(lia) Hk) as R.
    destruct (numDigits_bounds n E) as [m [Hm _]].
    destruct (putDigits_starts_with_digit m n k E) as [d [r [Hd Hr]]].
    rewrite Hm in *. rewrite Hr in *.
    unfold readNumber.
    destruct (IsoDateFacts.digitChar_not_sign d Hd) as [_ Hs]. rewrite Hs.
    rewrite R. reflexivity.
Qed.

Lemma readValue_numeric (fuel : nat) (c : ascii) (r : string) :
  numeric c -> readValue (S fuel) (String c r) = readNumber (String c r).
Proof.
  intros [->|[d [Hd ->]]]; [reflexivity|].
  each_digit d Hd; reflexivity.
Qed.

Lemma numeric_head (c : ascii) :
  numeric c ->
  isJsonSpace c = false /\ Ascii.eqb c "]" = false
  /\ Ascii.eqb c "}" = false /\ Ascii.eqb c "034" = false.
Proof.
  intros [->|[d [Hd ->]]]; [repeat split|].
  each_digit d Hd; repeat split.
Qed.

(** Induction on JSON values, with the hypothesis for every element of
    an array and every member of an object. *)
Lemma json_nested_ind (P : json -> Prop) :
  P JNull ->
  (forall b, P (JBool b)) ->
  (forall n, P (JNum n)) ->
  (forall s, P (JStr s)) ->
  (forall l, Forall P l -> P (JArr l)) ->
  (forall ms, Forall (fun m => P (snd m)) ms -> P (JObj ms)) ->
  forall v, P v.
Proof.
  intros Hnull Hbool Hnum Hstr Harr Hobj.
  fix IH 1. intros [ | b | n | s | l | ms ].
  - exact Hnull.
  - apply Hbool.
  - apply Hnum.
  - apply Hstr.
  - apply Harr. induction l as [|x l IHl]; constructor; [apply IH | exact IHl].
  - apply Hobj. induction ms as [|m ms IHms]; constructor; [apply IH | exact IHms].
Qed.

Lemma putValue_arr (l : list json) (k : string) :
  putValue (JArr l) k = String "[" (putSeparated putValue l (String "]" k)).
Proof. reflexivity. Qed.

Lemma putValue_obj (ms : list (string * json)) (k : string) :
  putValue (JObj ms) k
  = String "{" (putSeparated
                  (fun m k' => putString (fst m) (String ":" (putValue (snd m) k')))
                  ms (String "}" k)).
Proof. reflexivity. Qed.

Lemma putSeparated_more {A : Type} (put : A -> string -> string)
    (x y : A) (l : list A) (k : string) :
  putSeparated put (x :: y :: l) k
  = put x (String "," (putSeparated put (y :: l) k)).
Proof. reflexivity. Qed.

(** The text of a value begins with a character of the value. *)
Lemma putValue_head (v : json) (k : string) :
  exists c r, putValue v k = String c r
              /\ isJsonSpace c = false /\ Ascii.eqb c "]" = false.
Proof.
  destruct v as [ | [] | n | s | l | ms ];
    try (eexists _, _; split; [reflexivity | split; reflexivity]).
  destruct (putNumber_head n k) as [c [r [E N]]].
  exists c, r. split; [exact E|].
  destruct (numeric_head c N) as [H1 [H2 _]]. split; assumption.
Qed.

Lemma readValue_unfold (fuel : nat) (s : string) :
  readValue (S fuel) s
  = match skipSpace s with
    | EmptyString => Throws
    | String c r =>
        if Ascii.eqb c "n" then literal "ull" JNull r
        else if Ascii.eqb c "t" then literal "rue" (JBool true) r
        else if Ascii.eqb c "f" then literal "alse" (JBool false) r
        else if Ascii.eqb c "034" then
          ' (str, r') <- readChars r ;; Ok (JStr str, r')
        else if Ascii.eqb c "[" then
          if startsWith "]" (skipSpace r) then Ok (JArr [], tail (skipSpace r))
          else ' (l, r') <- readElements fuel r ;; Ok (JArr l, r')
        else if Ascii.eqb c "{" then
          if startsWith "}" (skipSpace r) then Ok (JObj [], tail (skipSpace r))
          else ' (ms, r') <- readMembers fuel r ;; Ok (JObj ms, r')
        else readNumber (String c r)
    end.
Proof. reflexivity. Qed.

Lemma readElements_unfold (fuel : nat) (s : string) :
  readElements (S fuel) s
  = ' (v, r) <- readValue fuel s ;;
    let r1 := skipSpace r in
    if startsWith "," r1 then
      ' (l, r') <- readElements fuel (tail r1) ;; Ok (v :: l, r')
    else if startsWith "]" r1 then Ok ([v], tail r1)
    else Throws.
Proof. reflexivity. Qed.

Lemma readMembers_unfold (fuel : nat) (s : string) :
  readMembers (S fuel) s
  = let s1 := skipSpace s in
    if startsWith "034" s1 then
      ' (key, r) <- readChars (tail s1) ;;
      let r1 := skipSpace r in
      if startsWith ":" r1 then
        ' (v, r2) <- readValue fuel (tail r1) ;;
        let r3 := skipSpace r2 in
        if startsWith "," r3 then
          ' (ms, r') <- readMembers fuel (tail r3) ;; Ok ((key, v) :: ms, r')
        else if startsWith "}" r3 then Ok ([(key, v)], tail r3)
        else Throws
      else Throws
    else Throws.
Proof. reflexivity. Qed.

Lemma readElements_putSeparated (l : list json) :
  Forall readsBack l ->
  forall (x : json) (k : string) (fuel : nat),
    readsBack x -> allOf exactJson (x :: l) ->
    (sumOf weight (x :: l) <= fuel)%nat ->
    readElements fuel (putSeparated putValue (x :: l) (String "]" k)) = Ok (x :: l, k).
Proof.
  induction 1 as [|y l Hy Hl IH]; intros x k fuel Hx [Ex El] Hw;
    (destruct fuel as [|fuel]; [simpl in Hw; lia|]);
    rewrite readElements_unfold.
  - cbn [putSeparated].
    rewrite (Hx Ex) by (try reflexivity; simpl in Hw; lia).
    reflexivity.
  - rewrite putSeparated_more.
    rewrite (Hx Ex) by (try reflexivity; cbn [sumOf] in Hw; lia).
    cbn [bind]. cbv zeta.
    change (skipSpace (String "," (putSeparated putValue (y :: l) (String "]" k))))
      with (String "," (putSeparated putValue (y :: l) (String "]" k))).
    cbn [startsWith tail]. change (Ascii.eqb "," ",") with true. cbv iota.
    rewrite (IH y k fuel Hy El) by (cbn [sumOf] in Hw |- *; lia).
    reflexivity.
Qed.

Lemma putString_eq (s k : string) :
  putString s k = String "034" (putChars s (String "034" k)).
Proof. reflexivity. Qed.

Lemma readMembers_putSeparated (ms : list (string * json)) :
  Forall (fun m => readsBack (snd m)) ms ->
  forall (m : string * json) (k : string) (fuel : nat),
    readsBack (snd m) ->
    allOf (fun m => exactJson (snd m)) (m :: ms) ->
    (sumOf (fun m => weight (snd m)) (m :: ms) <= fuel)%nat ->
    readMembers fuel
      (putSeparated (fun m k' => putString (fst m) (String ":" (putValue (snd m) k')))
                    (m :: ms) (String "}" k))
    = Ok (m :: ms, k).
Proof.
  induction 1 as [|y l Hy Hl IH]; intros [key v] k fuel Hx [Ex El] Hw;
    (destruct fuel as [|fuel]; [simpl in Hw; lia|]);
    cbn [fst snd] in *.
  - cbn [putSeparated fst snd]. rewrite (putString_eq key).
    rewrite readMembers_unfold. cbv zeta.
    change (skipSpace (String "034" ?x)) with (String "034" x).
    cbn [startsWith tail]. change (Ascii.eqb "034" "034") with true. cbv iota.
    rewrite readChars_putChars. cbn [bind].
    change (skipSpace (String ":" ?x)) with (String ":" x).
    cbn [startsWith tail]. change (Ascii.eqb ":" ":") with true. cbv iota.
    rewrite (Hx Ex) by (try reflexivity; simpl in Hw; lia).
    reflexivity.
  - rewrite putSeparated_more. cbn [fst snd]. rewrite (putString_eq key).
    rewrite readMembers_unfold. cbv zeta.
    change (skipSpace (String "034" ?x)) with (String "034" x).
    cbn [startsWith tail]. change (Ascii.eqb "034" "034") with true. cbv iota.
    rewrite readChars_putChars. cbn [bind].
    change (skipSpace (String ":" ?x)) with (String ":" x).
    cbn [startsWith tail]. change (Ascii.eqb ":" ":") with true. cbv iota.
    rewrite (Hx Ex) by (try reflexivity; cbn [sumOf snd] in Hw; lia).
    cbn [bind].
    change (skipSpace (String "," ?x)) with (String "," x).
    cbn [startsWith tail]. change (Ascii.eqb "," ",") with true. cbv iota.
    rewrite (IH y k fuel Hy El) by (cbn [sumOf snd] in Hw |- *; lia).
    reflexivity.
Qed.

(** [readValue] reads a written value back, and stops where it ends. *)
Lemma readValue_putValue (v : json) : readsBack v.
Proof.
  induction v as [ | b | n | s | l IHl | ms IHms ] using json_nested_ind;
    intros Ex k fuel Hk Hw;
    (destruct fuel as [|fuel]; [simpl in Hw; lia|]).
  - reflexivity.
  - destruct b; reflexivity.
  - destruct (putNumber_head n k) as [c [r [E N]]].
    destruct (numeric_head c N) as [Hs _].
    change (putValue (JNum n) k) with (putNumber n k).
    rewrite E, readValue_numeric by exact N.
    rewrite <- E. apply readNumber_putNumber; assumption.
  - rewrite readValue_unfold. unfold putValue, putString.
    change (skipSpace (String "034" ?x)) with (String "034" x).
    cbn [Ascii.eqb Bool.eqb andb]. rewrite readChars_putChars. reflexivity.
  - rewrite putValue_arr, readValue_unfold.
    change (skipSpace (String "[" ?x)) with (String "[" x).
    cbn [Ascii.eqb Bool.eqb andb].
    destruct l as [|x l]; [reflexivity|].
    inversion IHl as [|x' l' Hx Hl]; subst.
    assert (Hhead : startsWith "]" (skipSpace (putSeparated putValue (x :: l) (String "]" k)))
                    = false).
    { destruct l as [|y l].
      - cbn [putSeparated].
        destruct (putValue_head x (String "]" k)) as [c [r [E [H1 H2]]]].
        rewrite E. cbn [skipSpace]. rewrite H1. cbn [startsWith]. exact H2.
      - rewrite putSeparated_more.
        destruct (putValue_head x (String "," (putSeparated putValue (y :: l) (String "]" k))))
          as [c [r [E [H1 H2]]]].
        rewrite E. cbn [skipSpace]. rewrite H1. cbn [startsWith]. exact H2. }
    rewrite Hhead.
    rewrite (readElements_putSeparated l Hl x k fuel Hx Ex) by (simpl in Hw |- *; lia).
    reflexivity.
  - rewrite putValue_obj, readValue_unfold.
    change (skipSpace (String "{" ?x)) with (String "{" x).
    cbn [Ascii.eqb Bool.eqb andb].
    destruct ms as [|m ms]; [reflexivity|].
    inversion IHms as [|x' l' Hx Hl]; subst.
    assert (Hhead : startsWith "}"
                      (skipSpace
                         (putSeparated
                            (fun m k' => putString (fst m) (String ":" (putValue (snd m) k')))
                            (m :: ms) (String "}" k)))
                    = false).
    { destruct ms as [|y ms]; [cbn [putSeparated] | rewrite putSeparated_more];
        unfold putString at 1; reflexivity. }
    rewrite Hhead.
    rewrite (readMembers_putSeparated ms Hl m k fuel Hx Ex) by (simpl in Hw |- *; lia).
    reflexivity.
Qed.

Lemma length_putDigits (n : nat) (v : Z) (k : string) :
  String.length (putDigits n v k) = (n + String.length k)%nat.
Proof.
  revert v k. induction n as [|n IH]; intros v k; [reflexivity|].
  cbn [putDigits]. rewrite IH. simpl. lia.
Qed.

Lemma length_putChars (s k : string) :
  (String.length k <= String.length (putChars s k))%nat.
Proof.
  induction s as [|c s IH]; [simpl; lia|].
  cbn [putChars]. unfold putChar.
  repeat match goal with
         | |- context [if ?b then _ else _] => destruct b
         end; simpl; lia.
Qed.

Lemma length_putString (s k : string) :
  (S (String.length k) <= String.length (putString s k))%nat.
Proof.
  unfold putString. simpl.
  pose proof (length_putChars s (String "034" k)). simpl in *. lia.
Qed.

Lemma length_putNumber (n : Z) (k : string) :
  (S (String.length k) <= String.length (putNumber n k))%nat.
Proof.
  unfold putNumber. destruct (n <? 0) eqn:E.
  - simpl. rewrite length_putDigits. lia.
  - apply Z.ltb_ge in E. destruct (numDigits_bounds n E) as [m [Hm _]].
    rewrite Hm, length_putDigits. lia.
Qed.

(** The text of a value is at least as long as the fuel it needs. *)
Lemma weight_le_length (v : json) :
  forall k, (weight v + String.length k <= String.length (putValue v k))%nat.
Proof.
  induction v as [ | b | n | s | l IHl | ms IHms ] using json_nested_ind; intros k.
  - simpl. lia.
  - destruct b; simpl; lia.
  - change (putValue (JNum n) k) with (putNumber n k).
    pose proof (length_putNumber n k). cbn [weight]. lia.
  - change (putValue (JStr s) k) with (putString s k).
    pose proof (length_putString s k). cbn [weight]. lia.
  - rewrite putValue_arr. cbn [weight String.length].
    assert (G : forall k', (sumOf weight l + String.length k'
                            <= S (String.length (putSeparated putValue l k')))%nat).
    { induction IHl as [|x l Hx Hl IH]; intros k'; [simpl; lia|].
      destruct l as [|y l].
      - cbn [putSeparated sumOf]. specialize (Hx k'). lia.
      - rewrite putSeparated_more.
        specialize (Hx (String "," (putSeparated putValue (y :: l) k'))).
        specialize (IH k'). cbn [sumOf String.length] in *. lia. }
    specialize (G (String "]" k)). cbn [String.length] in G. lia.
  - rewrite putValue_obj. cbn [weight String.length].
    set (put := fun (m : string * json) k' =>
                  putString (fst m) (String ":" (putValue (snd m) k'))).
    assert (G : forall k', (sumOf (fun m => weight (snd m)) ms + String.length k'
                            <= S (String.length (putSeparated put ms k')))%nat).
    { induction IHms as [|x l Hx Hl IH]; intros k'; [simpl; lia|].
      destruct l as [|y l].
      - cbn [putSeparated sumOf]. unfold put at 1.
        pose proof (length_putString (fst x) (String ":" (putValue (snd x) k'))) as L.
        specialize (Hx k'). cbn [String.length] in L. lia.
      - rewrite putSeparated_more. unfold put at 1.
        pose proof (length_putString (fst x)
                      (String ":" (putValue (snd x)
                                     (String "," (putSeparated put (y :: l) k'))))) as L.
        specialize (Hx (String "," (putSeparated put (y :: l) k'))).
        specialize (IH k'). cbn [sumOf String.length] in *. lia. }
    specialize (G (String "}" k)). cbn [String.length] in G. lia.
Qed.

(** [JSON.parse(JSON.stringify(v))] is [v]. *)
Lemma parse_stringify (v : json) :
  exactJson v -> parse (stringify v) = Ok v.
Proof.
  intros Ex. unfold parse, stringify.
  rewrite (readValue_putValue v Ex EmptyString).
  - reflexivity.
  - reflexivity.
  - pose proof (weight_le_length v EmptyString). lia.
Qed.
End JsonFacts.

(** ** Saving and loading *)

Module PersistFacts.
Import Persist.

Lemma priorityOfName_priorityName (p : Priority) :
  priorityOfName (priorityName p) = Some p.
Proof. destruct p; reflexivity. Qed.

Lemma validTime_safeInt (t : Z) : IsoDate.validTime t -> Json.safeInt t.
Proof.
  unfold IsoDate.validTime, IsoDate.maxTime, Json.safeInt, Json.maxSafe. lia.
Qed.

Lemma newDate_toISOString (t : Z) :
  IsoDate.validTime t -> newDate (IsoDate.toISOString t) = Ok t.
Proof.
  intros H. unfold newDate. rewrite IsoDateFacts.parseISO_toISOString by exact H.
  reflexivity.
Qed.

(** The load callback restores a serialized task. *)
Lemma reviveElement_taskToJSON (t : task) :
  storable t -> reviveElement (taskToJSON t) = Ok t.
Proof.
  intros [Hid [Hcr Hdue]]. destruct t as [i tx c cr p due].
  cbn [id text completed createdAt priority dueDate] in *.
  unfold reviveElement, taskToJSON.
  cbn [id text completed createdAt priority dueDate].
  destruct due as [d|].
  - cbn. rewrite priorityOfName_priorityName. cbn.
    unfold withDates. cbn [p_id p_text p_completed p_createdAt p_priority p_dueDate].
    rewrite newDate_toISOString by exact Hcr. cbn [bind].
    rewrite IsoDateFacts.toISOString_truthy.
    rewrite newDate_toISOString by exact Hdue. reflexivity.
  - cbn. rewrite priorityOfName_priorityName. cbn.
    unfold withDates. cbn [p_id p_text p_completed p_createdAt p_priority p_dueDate].
    rewrite newDate_toISOString by exact Hcr. reflexivity.
Qed.

Lemma mapOutcome_taskToJSON (ts : list task) :
  Forall storable ts -> mapOutcome reviveElement (map taskToJSON ts) = Ok ts.
Proof.
  induction 1 as [|t ts Ht Hts IH]; [reflexivity|].
  cbn [map mapOutcome]. rewrite (reviveElement_taskToJSON t Ht). cbn [bind].
  rewrite IH. reflexivity.
Qed.

Lemma exactJson_tasks (ts : list task) :
  Forall storable ts -> exactJson (JArr (map taskToJSON ts)).
Proof.
  induction 1 as [|t ts Ht Hts IH]; [exact I|].
  cbn [exactJson map allOf] in *. split; [|exact IH].
  destruct Ht as [Hid _]. unfold taskToJSON. cbn.
  split; [apply validTime_safeInt; exact Hid|].
  destruct (dueDate t); repeat split.
Qed.

Lemma stringifyTasks_truthy (ts : list task) :
  JsString.truthy (stringifyTasks ts) = true.
Proof. reflexivity. Qed.

(** Parsing the saved text gives the tasks back. *)
Lemma parseSavedTasks_stringifyTasks (ts : list task) :
  Forall storable ts -> parseSavedTasks (stringifyTasks ts) = Ok ts.
Proof.
  intros H. unfold parseSavedTasks, stringifyTasks.
  rewrite JsonFacts.parse_stringify by (apply exactJson_tasks; exact H).
  cbn [bind]. apply mapOutcome_taskToJSON. exact H.
Qed.

Section Storable.
Variable taskId : Z.
Variable f : task -> task.
Hypothesis f_storable : forall t, storable t -> storable (f t).

Lemma update_storable (ts : list task) :
  Forall storable ts ->
  Forall storable (map (fun t => if id t =? taskId then f t else t) ts).
Proof.
  induction 1 as [|t ts Ht Hts IH]; constructor; [|exact IH].
  destruct (id t =? taskId); [apply f_storable|]; exact Ht.
Qed.
End Storable.

Lemma filter_storable (p : task -> bool) (ts : list task) :
  Forall storable ts -> Forall storable (filter p ts).
Proof.
  intros H. apply Forall_forall. intros t Ht.
  apply filter_In in Ht. destruct Ht as [Ht _].
  revert t Ht. apply Forall_forall. exact H.
Qed.

Lemma in_firstn {A : Type} (n : nat) (l : list A) (x : A) :
  In x (firstn n l) -> In x l.
Proof.
  intros H. rewrite <- (firstn_skipn n l). apply in_or_app. left. exact H.
Qed.

Lemma in_skipn {A : Type} (n : nat) (l : list A) (x : A) :
  In x (skipn n l) -> In x l.
Proof.
  intros H. rewrite <- (firstn_skipn n l). apply in_or_app. right. exact H.
Qed.

(** Reordering brings no task into the array that was not in it. *)
Lemma reorder_brings_nothing_new (fromIndex toIndex : Z) (ts : list task) (t : task) :
  In (Some t) (reorderTasks fromIndex toIndex ts) -> In t ts.
Proof.
  unfold reorderTasks, spliceDelete1, spliceInsert.
  set (l := map Some ts).
  set (k := spliceStart fromIndex l).
  set (rest := firstn k l ++ skipn (S k) l).
  set (j := spliceStart toIndex rest).
  assert (Hl : forall x, In (Some x) l -> In x ts).
  { intros x Hx. apply in_map_iff in Hx. destruct Hx as [y [Hy Hin]]. congruence. }
  assert (Hrest : forall x, In (Some x) rest -> In x ts).
  { intros x Hx. apply Hl. apply in_app_or in Hx.
    destruct Hx as [Hx|Hx]; [apply in_firstn in Hx | apply in_skipn in Hx]; exact Hx. }
  intros H. apply in_app_or in H. destruct H as [H|[H|H]].
  - apply Hrest. apply in_firstn in H. exact H.
  - apply Hl. destruct (firstn 1 (skipn k l)) as [|x xs] eqn:E; [discriminate|].
    subst x. apply (in_skipn k). apply (in_firstn 1). rewrite E. left. reflexivity.
  - apply Hrest. apply in_skipn in H. exact H.
Qed.

(** Every task the operations produce can be stored. *)
Lemma producible_storable (ts : list task) :
  producible ts -> Forall storable ts.
Proof.
  induction 1 as [ | clk newTask prio selectedDate ts _ IH Hid Hcr Hsel
                   | taskId ts _ IH | taskId newText ts _ IH | taskId ts _ IH
                   | ts _ IH | taskId p ts _ IH | taskId d ts _ IH Hd
                   | fromIndex toIndex ts ts' _ IH Hre | a st ].
  - constructor.
  - unfold addTask. destruct (JsString.truthy (JsString.trim newTask)); [|exact IH].
    constructor; [|exact IH].
    split; [|split]; cbn; try assumption.
    destruct (now_due clk <? selectedDate); [assumption | exact I].
  - cbn [toggleTask fst]. apply update_storable; [|exact IH].
    intros t [H1 [H2 H3]]. split; [|split]; assumption.
  - apply update_storable; [|exact IH].
    intros t [H1 [H2 H3]]. split; [|split]; assumption.
  - apply filter_storable. exact IH.
  - apply filter_storable. exact IH.
  - apply update_storable; [|exact IH].
    intros t [H1 [H2 H3]]. split; [|split]; assumption.
  - apply update_storable; [|exact IH].
    intros t [H1 [H2 H3]]. split; [|split]; assumption.
  - apply Forall_forall. intros t Ht.
    assert (Hin : In t ts).
    { apply (reorder_brings_nothing_new fromIndex toIndex). rewrite Hre.
      apply in_map. exact Ht. }
    clear Ht. revert t Hin. apply Forall_forall. exact IH.
  - constructor.
Qed.
End PersistFacts.

(** C7.  A task list the store's operations produce, written by the save
    effect and read by [loadData] at the next start, comes back equal
    to what it was, task by task and property by property, [createdAt]
    and [dueDate] as time values again and an absent due date as [null]. *)
Theorem saved_tasks_load_back (ts : list task) (dark : bool) (st : Persist.storage) :
  producible ts ->
  exists b : Persist.app,
    Persist.loadData (Persist.saveTasks (Persist.mkApp ts dark false) st) Persist.initialApp
    = Ok b
    /\ Persist.tasks b = ts.
Proof.
  intros H. apply PersistFacts.producible_storable in H.
  unfold Persist.saveTasks, Persist.loadData. cbn [Persist.isLoading Persist.tasks].
  unfold Persist.getItem at 1. unfold Persist.setItem at 1.
  change (String.eqb "@tasks" "@tasks") with true. cbv iota.
  rewrite PersistFacts.stringifyTasks_truthy.
  rewrite (PersistFacts.parseSavedTasks_stringifyTasks ts H).
  eexists. split; reflexivity.
Qed.

Lemma saved_tasks_load_back_witness :
  producible sampleTasks
  /\ exists b : Persist.app,
       Persist.loadData
         (Persist.saveTasks (Persist.mkApp sampleTasks true false) Persist.emptyStorage)
         Persist.initialApp = Ok b
       /\ Persist.tasks b = sampleTasks.
Proof.
  assert (P : producible sampleTasks).
  { unfold sampleTasks.
    apply prod_dueDate; [apply prod_toggle; apply prod_add; [apply prod_add|..]|];
      try apply prod_initial;
      unfold IsoDate.validTime, IsoDate.maxTime; simpl; lia. }
  split; [exact P|].
  apply (saved_tasks_load_back sampleTasks true Persist.emptyStorage P).
Defined.

(** * Further properties of the store *)

(** ** Toggling, deleting, clearing *)

(** X1.  Toggling the same id twice gives the task list back, whether
    the id occurs once, several times or not at all. *)
Theorem toggleTask_twice (taskId : Z) (ts : list task) :
  fst (toggleTask taskId (fst (toggleTask taskId ts))) = ts.
Proof.
  unfold toggleTask. cbn [fst]. rewrite map_map.
  induction ts as [|t ts IH]; [reflexivity|].
  cbn [map]. rewrite IH. f_equal.
  destruct (id t =? taskId) eqn:E.
  - cbn [with_completed id]. rewrite E. destruct t as [i tx c cr p due].
    cbn. rewrite negb_involutive. reflexivity.
  - rewrite E. reflexivity.
Qed.

Lemma confirmDelete_absent (taskId : Z) (ts : list task) :
  hasId taskId ts = false -> confirmDelete taskId ts = ts.
Proof.
  unfold confirmDelete, hasId.
  induction ts as [|t ts IH]; [reflexivity|].
  cbn [existsb filter]. intros H. apply orb_false_iff in H. destruct H as [Ht Hts].
  rewrite Ht. cbn [negb]. rewrite (IH Hts). reflexivity.
Qed.

Lemma confirmDelete_removes (taskId : Z) (ts : list task) :
  hasId taskId (confirmDelete taskId ts) = false.
Proof.
  unfold confirmDelete, hasId.
  induction ts as [|t ts IH]; [reflexivity|].
  cbn [filter]. destruct (id t =? taskId) eqn:E; cbn [negb]; [exact IH|].
  cbn [existsb]. rewrite E, IH. reflexivity.
Qed.

Lemma confirmDelete_shorter (taskId : Z) (ts : list task) :
  hasId taskId ts = true ->
  (List.length (confirmDelete taskId ts) < List.length ts)%nat.
Proof.
  unfold confirmDelete, hasId.
  induction ts as [|t ts IH]; [discriminate|].
  cbn [existsb filter]. destruct (id t =? taskId) eqn:E; cbn [negb orb].
  - intros _. cbn [List.length].
    pose proof (filter_length_le (fun t0 => negb (id t0 =? taskId)) ts). lia.
  - intros H. cbn [List.length]. specialize (IH H). lia.
Qed.

(** X2.  Deleting by the id a call of [addTask] has just read from the
    clock undoes the call, provided no older task carries that id. *)
Theorem confirmDelete_undoes_addTask (clk : clock) (newTask : string)
    (prio : Priority) (selectedDate : Z) (ts : list task) :
  hasId (now_id clk) ts = false ->
  confirmDelete (now_id clk) (addTask clk newTask prio selectedDate ts) = ts.
Proof.
  intros H. unfold addTask.
  destruct (JsString.truthy (JsString.trim newTask)).
  - unfold confirmDelete. cbn [filter id]. rewrite Z.eqb_refl. cbn [negb].
    apply (confirmDelete_absent _ _ H).
  - apply confirmDelete_absent. exact H.
Qed.

Lemma confirmDelete_undoes_addTask_witness :
  hasId 7 [taskA; taskB] = false
  /\ confirmDelete 7 (addTask (at_instant 7) "milk" high 9 [taskA; taskB]) = [taskA; taskB].
Proof.
  split; [reflexivity|].
  apply (confirmDelete_undoes_addTask (at_instant 7) "milk" high 9 [taskA; taskB]).
  reflexivity.
Defined.

(** X3.  After [confirmDelete] no task carries the deleted id, and a
    second deletion changes nothing.  When some task carried it the list
    has become shorter; when none did, the list is as it was. *)
Theorem confirmDelete_by_id (taskId : Z) (ts : list task) :
  hasId taskId (confirmDelete taskId ts) = false
  /\ confirmDelete taskId (confirmDelete taskId ts) = confirmDelete taskId ts
  /\ (if hasId taskId ts
      then (List.length (confirmDelete taskId ts) < List.length ts)%nat
      else confirmDelete taskId ts = ts).
Proof.
  split; [apply confirmDelete_removes|].
  split; [apply confirmDelete_absent; apply confirmDelete_removes|].
  destruct (hasId taskId ts) eqn:H.
  - apply confirmDelete_shorter. exact H.
  - apply confirmDelete_absent. exact H.
Qed.

Lemma filter_filter_same {A : Type} (p : A -> bool) (l : list A) :
  filter p (filter p l) = filter p l.
Proof.
  induction l as [|x l IH]; [reflexivity|].
  cbn [filter]. destruct (p x) eqn:E; [|exact IH].
  cbn [filter]. rewrite E, IH. reflexivity.
Qed.

Lemma filter_filter_none {A : Type} (p : A -> bool) (l : list A) :
  filter p (filter (fun x => negb (p x)) l) = [].
Proof.
  induction l as [|x l IH]; [reflexivity|].
  cbn [filter]. destruct (p x) eqn:E; cbn [negb]; [exact IH|].
  cbn [filter]. rewrite E. exact IH.
Qed.

(** X4.  [clearCompleted] leaves exactly the view of the filter
    [active]: no completed task remains, the number of active tasks is
    what it was, and clearing again changes nothing. *)
Theorem clearCompleted_keeps_active (searchQuery : string) (ts : list task) :
  clearCompleted ts = filteredTasks "active" searchQuery ts
  /\ completedTasksCount (clearCompleted ts) = O
  /\ activeTasksCount (clearCompleted ts) = activeTasksCount ts
  /\ clearCompleted (clearCompleted ts) = clearCompleted ts.
Proof.
  split; [reflexivity|].
  unfold completedTasksCount, activeTasksCount, clearCompleted.
  split; [rewrite filter_filter_none; reflexivity|].
  split; rewrite filter_filter_same; reflexivity.
Qed.

(** X5.  When [toggleTask] signals the celebration, every task is
    completed, and [clearCompleted] then empties the list. *)
Theorem clearCompleted_after_celebration (taskId : Z) (ts : list task) :
  snd (toggleTask taskId ts) = true ->
  clearCompleted (fst (toggleTask taskId ts)) = [].
Proof.
  unfold toggleTask. cbn [fst snd].
  generalize (map (fun t => if id t =? taskId
                            then with_completed (negb (completed t)) t else t) ts).
  intros l. unfold clearCompleted.
  induction l as [|t l IH]; [reflexivity|].
  cbn [forallb filter]. intros H. apply andb_true_iff in H. destruct H as [Ht Hl].
  rewrite Ht. cbn [negb]. apply IH. exact Hl.
Qed.

Lemma clearCompleted_after_celebration_witness :
  snd (toggleTask 1 [taskA; taskC]) = true
  /\ clearCompleted (fst (toggleTask 1 [taskA; taskC])) = [].
Proof.
  split; [reflexivity|].
  apply (clearCompleted_after_celebration 1 [taskA; taskC]). reflexivity.
Defined.

(** ** Statistics *)

Lemma overdueCountFrom_le (now : nat -> Z) (i : nat) (ts : list task) :
  (overdueCountFrom now i ts <= activeTasksCount ts)%nat.
Proof.
  unfold activeTasksCount. revert i.
  induction ts as [|t ts IH]; intros i; [apply le_n|].
  cbn [overdueCountFrom filter]. specialize (IH (S i)).
  unfold isOverdue. destruct (dueDate t) as [d|].
  - destruct (completed t); cbn [negb]; rewrite ?andb_false_r, ?andb_true_r.
    + cbn [Nat.add]. exact IH.
    + cbn [List.length]. destruct (d <? now i); lia.
  - destruct (completed t); cbn [negb List.length]; lia.
Qed.

Lemma overdueCountFrom_constant (now : Z) (i : nat) (ts : list task) :
  overdueCountFrom (fun _ => now) i ts = List.length (filter (isOverdue now) ts).
Proof.
  revert i. induction ts as [|t ts IH]; intros i; [reflexivity|].
  cbn [overdueCountFrom filter]. rewrite (IH (S i)).
  destruct (isOverdue now t); reflexivity.
Qed.

(** X6.  The statistics add up: every task is counted as active or as
    completed and never as both; the high-priority and the overdue count
    are counts of active tasks, so neither exceeds the active count; and
    with one clock reading the overdue count is the number of tasks a row
    would flag as overdue. *)
Theorem statistics_add_up (now : nat -> Z) (instant : Z) (ts : list task) :
  (activeTasksCount ts + completedTasksCount ts = List.length ts)%nat
  /\ (highPriorityCount ts <= activeTasksCount ts)%nat
  /\ (overdueCount now ts <= activeTasksCount ts)%nat
  /\ overdueCount (fun _ => instant) ts = List.length (filter (isOverdue instant) ts).
Proof.
  split; [|split; [|split]].
  - unfold activeTasksCount, completedTasksCount.
    induction ts as [|t ts IH]; [reflexivity|].
    cbn [filter]. destruct (completed t); cbn [negb List.length]; lia.
  - unfold highPriorityCount, activeTasksCount.
    induction ts as [|t ts IH]; [apply le_n|].
    cbn [filter]. destruct (completed t); cbn [negb];
      rewrite ?andb_false_r, ?andb_true_r; [exact IH|].
    destruct (isHigh (priority t)); cbn [List.length]; lia.
  - apply overdueCountFrom_le.
  - apply overdueCountFrom_constant.
Qed.


Lemma hasId_false_iff (taskId : Z) (ts : list task) :
  hasId taskId ts = false <-> ~ In taskId (map id ts).
Proof.
  unfold hasId. induction ts as [|t ts IH]; cbn [existsb map In].
  - split; [intros _ [] | reflexivity].
  - rewrite orb_false_iff, IH, Z.eqb_neq. tauto.
Qed.

(** X7.  With pairwise distinct ids, toggling the id of a task of the
    list moves exactly that task between the two counts: one more
    completed and one less active when it was active, the other way round
    when it was completed. *)
Theorem toggleTask_moves_one (t : task) (ts : list task) :
  NoDup (map id ts) -> In t ts ->
  let ts' := fst (toggleTask (id t) ts) in
  if completed t
  then S (completedTasksCount ts') = completedTasksCount ts
       /\ activeTasksCount ts' = S (activeTasksCount ts)
  else completedTasksCount ts' = S (completedTasksCount ts)
       /\ S (activeTasksCount ts') = activeTasksCount ts.
Proof.
  cbv zeta. unfold completedTasksCount, activeTasksCount, toggleTask. cbn [fst].
  induction ts as [|u ts IH]; intros Hnd Hin; [contradiction|].
  cbn [map] in Hnd. inversion Hnd as [|x l Hnotin Hnd']; subst.
  destruct Hin as [Hin|Hin].
  - subst u. cbn [map]. rewrite Z.eqb_refl.
    assert (Habs : map (fun t0 => if id t0 =? id t
                                  then with_completed (negb (completed t0)) t0 else t0) ts
                   = ts).
    { apply update_absent. apply hasId_false_iff. exact Hnotin. }
    rewrite Habs. cbn [filter with_completed completed].
    destruct (completed t); cbn [negb List.length]; split; reflexivity.
  - assert (Hne : (id u =? id t) = false).
    { apply Z.eqb_neq. intros E. apply Hnotin. rewrite E. apply in_map. exact Hin. }
    cbn [map]. rewrite Hne. specialize (IH Hnd' Hin).
    cbn [filter].
    destruct (completed t); destruct IH as [H1 H2];
      destruct (completed u); cbn [negb List.length]; split; lia.
Qed.

Lemma toggleTask_moves_one_witness :
  NoDup (map id [taskA; taskB; taskC]) /\ In taskB [taskA; taskB; taskC]
  /\ completedTasksCount (fst (toggleTask 2 [taskA; taskB; taskC]))
     = S (completedTasksCount [taskA; taskB; taskC])
  /\ S (activeTasksCount (fst (toggleTask 2 [taskA; taskB; taskC])))
     = activeTasksCount [taskA; taskB; taskC].
Proof.
  assert (Hnd : NoDup (map id [taskA; taskB; taskC])).
  { simpl. repeat constructor; simpl; lia. }
  assert (Hin : In taskB [taskA; taskB; taskC]) by (right; left; reflexivity).
  split; [exact Hnd|]. split; [exact Hin|].
  exact (toggleTask_moves_one taskB [taskA; taskB; taskC] Hnd Hin).
Defined.

(** ** Searching *)

Lemma toLowerCase_truthy (s : string) :
  JsString.truthy (JsString.toLowerCase s) = JsString.truthy s.
Proof. destruct s; reflexivity. Qed.

(** X8.  Under the filter [all], two queries that differ only in the
    case of their letters give the same view. *)
Theorem search_ignores_case (query1 query2 : string) (ts : list task) :
  JsString.toLowerCase query1 = JsString.toLowerCase query2 ->
  filteredTasks "all" query1 ts = filteredTasks "all" query2 ts.
Proof.
  intros E. unfold filteredTasks. apply filter_ext. intros t.
  cbn [String.eqb Ascii.eqb Bool.eqb andb].
  rewrite <- (toLowerCase_truthy query1), <- (toLowerCase_truthy query2), E.
  reflexivity.
Qed.

Lemma search_ignores_case_witness :
  JsString.toLowerCase "MiLk" = JsString.toLowerCase "milk"
  /\ filteredTasks "all" "MiLk" [taskA; taskB] = filteredTasks "all" "milk" [taskA; taskB].
Proof.
  split; [reflexivity|].
  apply (search_ignores_case "MiLk" "milk" [taskA; taskB]). reflexivity.
Defined.

(** ** The priority button of a row *)





(** ** Dragging a row *)

Section Moving.
Context {A : Type}.

Lemma Permutation_removeAt (i : nat) (l : list A) (x : A) :
  nth_error l i = Some x -> Permutation l (x :: removeAt i l).
Proof.
  revert i. induction l as [|y l IH]; intros [|i] H; try discriminate.
  - injection H as ->. apply Permutation_refl.
  - cbn [removeAt]. cbn [nth_error] in H.
    apply Permutation_trans with (y :: x :: removeAt i l).
    + apply perm_skip. apply IH. exact H.
    + apply perm_swap.
Qed.

Lemma Permutation_insertAt (j : nat) (x : A) (l : list A) :
  Permutation (x :: l) (insertAt j x l).
Proof.
  revert l. induction j as [|j IH]; intros [|y l]; cbn [insertAt];
    try apply Permutation_refl.
  apply Permutation_trans with (y :: x :: l); [apply perm_swap|].
  apply perm_skip. apply IH.
Qed.

Lemma allDefined_map_Some (l : list A) : allDefined (map Some l) = Some l.
Proof.
  induction l as [|x l IH]; [reflexivity|].
  cbn [map allDefined]. rewrite IH. reflexivity.
Qed.

Lemma allDefined_None (l1 l2 : list (option A)) :
  allDefined (l1 ++ None :: l2) = None.
Proof.
  induction l1 as [|[x|] l1 IH]; cbn [app allDefined]; [reflexivity | | reflexivity].
  rewrite IH. reflexivity.
Qed.

Lemma allDefined_Some (l : list (option A)) (xs : list A) :
  allDefined l = Some xs -> l = map Some xs.
Proof.
  revert xs. induction l as [|[x|] l IH]; intros xs H; cbn [allDefined] in H.
  - injection H as <-. reflexivity.
  - destruct (allDefined l) as [ys|]; [|discriminate].
    injection H as <-. cbn [map]. rewrite (IH ys eq_refl). reflexivity.
  - discriminate.
Qed.
End Moving.

(** Within the list, [reorderTasks] is removal followed by insertion. *)
Lemma reorderTasks_within (fromIndex toIndex : Z) (ts : list task) (moved : task) :
  0 <= fromIndex < Z.of_nat (List.length ts) ->
  0 <= toIndex < Z.of_nat (List.length ts) ->
  nth_error ts (Z.to_nat fromIndex) = Some moved ->
  reorderTasks fromIndex toIndex ts
  = map Some (insertAt (Z.to_nat toIndex) moved (removeAt (Z.to_nat fromIndex) ts)).
Proof.
  intros Hf Ht Hm.
  set (i := Z.to_nat fromIndex) in *. set (j := Z.to_nat toIndex).
  assert (Hi : (i < List.length ts)%nat) by (subst i; lia).
  assert (Hlen : S (List.length (removeAt i ts)) = List.length ts)
    by (apply length_removeAt; exact Hi).
  unfold reorderTasks, spliceDelete1.
  rewrite spliceStart_in_range by (rewrite length_map; lia).
  fold i.
  assert (Hsk : firstn 1 (skipn i (map Some ts)) = [Some moved]).
  { rewrite skipn_map, firstn_map.
    apply nth_error_split in Hm. destruct Hm as [l1 [l2 [E L]]].
    rewrite E, <- L, skipn_app, Nat.sub_diag, skipn_all. reflexivity. }
  rewrite Hsk.
  assert (Hrem : firstn i (map Some ts) ++ skipn (S i) (map Some ts)
                 = map Some (removeAt i ts)).
  { rewrite removeAt_firstn_skipn, map_app, firstn_map, skipn_map. reflexivity. }
  rewrite Hrem. unfold spliceInsert.
  rewrite spliceStart_in_range by (rewrite length_map; lia).
  fold j.
  rewrite insertAt_firstn_skipn, map_app, firstn_map. cbn [map].
  rewrite skipn_map. reflexivity.
Qed.

(** X10.  Releasing a dragged row leaves the store's list alone when
    the clamped drop position is the row's own.  Otherwise the store gets
    the list the row's handler captured at the row's first render,
    reordered: the same tasks as that captured list and no [undefined],
    the task at the row's index at the clamped position and the others in
    their order, whatever list the store held at the release; a task that
    is not in the captured list is not in the result. *)
Theorem release_permutes (index totalTasks dropPosition : Z)
    (captured current : list task) :
  0 <= index < totalTasks ->
  totalTasks <= Z.of_nat (List.length captured) ->
  let newIndex := Z.min (Z.max (index + dropPosition) 0) (totalTasks - 1) in
  0 <= newIndex < totalTasks
  /\ if newIndex =? index
     then onPanResponderRelease index totalTasks dropPosition captured current
          = map Some current
     else exists result : list task,
            onPanResponderRelease index totalTasks dropPosition captured current
            = map Some result
            /\ Permutation captured result
            /\ (forall t, In t result <-> In t captured)
            /\ nth_error result (Z.to_nat newIndex) = nth_error captured (Z.to_nat index)
            /\ removeAt (Z.to_nat newIndex) result = removeAt (Z.to_nat index) captured.
Proof.
  intros Hi Ht newIndex.
  assert (Hn : 0 <= newIndex < totalTasks) by (subst newIndex; lia).
  split; [exact Hn|].
  unfold onPanResponderRelease. fold newIndex.
  destruct (newIndex =? index) eqn:E; [reflexivity|].
  destruct (nth_error captured (Z.to_nat index)) as [moved|] eqn:Hm;
    [|apply nth_error_None in Hm; lia].
  assert (Hlen : S (List.length (removeAt (Z.to_nat index) captured)) = List.length captured)
    by (apply length_removeAt; lia).
  assert (Hperm : Permutation captured
                    (insertAt (Z.to_nat newIndex) moved (removeAt (Z.to_nat index) captured))).
  { apply Permutation_trans with (moved :: removeAt (Z.to_nat index) captured).
    - apply Permutation_removeAt. exact Hm.
    - apply Permutation_insertAt. }
  exists (insertAt (Z.to_nat newIndex) moved (removeAt (Z.to_nat index) captured)).
  split; [apply reorderTasks_within; try exact Hm; lia|].
  split; [exact Hperm|].
  split.
  { intros t. split; intros H.
    - apply (Permutation_in t (Permutation_sym Hperm) H).
    - apply (Permutation_in t Hperm H). }
  split; [apply nth_error_insertAt; lia | apply removeAt_insertAt; lia].
Qed.

Lemma release_permutes_witness :
  0 <= 0 < 2 /\ 2 <= Z.of_nat (List.length [taskB; taskA])
  /\ 0 <= Z.min (Z.max (0 + 1) 0) (2 - 1) < 2
  /\ exists result : list task,
       onPanResponderRelease 0 2 1 [taskB; taskA] [taskC; taskB] = map Some result
       /\ Permutation [taskB; taskA] result
       /\ (forall t, In t result <-> In t [taskB; taskA])
       /\ nth_error result (Z.to_nat (Z.min (Z.max (0 + 1) 0) (2 - 1)))
          = nth_error [taskB; taskA] (Z.to_nat 0)
       /\ removeAt (Z.to_nat (Z.min (Z.max (0 + 1) 0) (2 - 1))) result
          = removeAt (Z.to_nat 0) [taskB; taskA].
Proof.
  assert (H1 : 0 <= 0 < 2) by lia.
  assert (H2 : 2 <= Z.of_nat (List.length [taskB; taskA])) by (simpl; lia).
  split; [exact H1|]. split; [exact H2|].
  exact (release_permutes 0 2 1 [taskB; taskA] [taskC; taskB] H1 H2).
Defined.

(** The row's handler writes the list of the row's first render: a task
    added since is gone after the drag, a task deleted since is back. *)
Example release_of_stale_row :
  onPanResponderRelease 0 2 1 [taskB; taskA] [taskC; taskB] = [Some taskA; Some taskB].
Proof. reflexivity. Qed.

(** ** Reordering out of range *)

(** X11.  With [fromIndex] at or past the end of the list, [reorderTasks]
    removes nothing and still inserts: the array keeps every task in its
    place and gets one [undefined] slot more. *)
Theorem reorderTasks_from_beyond (fromIndex toIndex : Z) (ts : list task) :
  Z.of_nat (List.length ts) <= fromIndex ->
  reorderTasks fromIndex toIndex ts = spliceInsert toIndex None (map Some ts)
  /\ List.length (reorderTasks fromIndex toIndex ts) = S (List.length ts)
  /\ allDefined (reorderTasks fromIndex toIndex ts) = None
  /\ removeAt (spliceStart toIndex (map Some ts)) (reorderTasks fromIndex toIndex ts)
     = map Some ts.
Proof.
  intros H.
  assert (E : reorderTasks fromIndex toIndex ts = spliceInsert toIndex None (map Some ts)).
  { unfold reorderTasks, spliceDelete1.
    assert (Hk : spliceStart fromIndex (map Some ts) = List.length (map Some ts)).
    { unfold spliceStart. rewrite length_map.
      destruct (fromIndex <? 0) eqn:N; [apply Z.ltb_lt in N; lia|].
      rewrite Z.min_r by lia. apply Nat2Z.id. }
    rewrite Hk, skipn_all. cbn [firstn].
    rewrite firstn_all, skipn_all2 by lia. rewrite app_nil_r. reflexivity. }
  rewrite E. unfold spliceInsert.
  set (k := spliceStart toIndex (map Some ts)).
  assert (Hk : (k <= List.length (map Some ts))%nat).
  { subst k. unfold spliceStart. cbv zeta.
    destruct (toIndex <? 0) eqn:N; [apply Z.ltb_lt in N|]; lia. }
  split; [reflexivity|]. split; [|split].
  - rewrite length_app. cbn [List.length]. rewrite length_firstn, length_skipn.
    rewrite length_map in *. lia.
  - apply allDefined_None.
  - rewrite <- insertAt_firstn_skipn. apply removeAt_insertAt. exact Hk.
Qed.

Lemma reorderTasks_from_beyond_witness :
  Z.of_nat (List.length [taskA; taskB]) <= 2
  /\ reorderTasks 2 0 [taskA; taskB] = spliceInsert 0 None (map Some [taskA; taskB])
  /\ List.length (reorderTasks 2 0 [taskA; taskB]) = S (List.length [taskA; taskB])
  /\ allDefined (reorderTasks 2 0 [taskA; taskB]) = None
  /\ removeAt (spliceStart 0 (map Some [taskA; taskB])) (reorderTasks 2 0 [taskA; taskB])
     = map Some [taskA; taskB].
Proof.
  assert (H : Z.of_nat (List.length [taskA; taskB]) <= 2) by (simpl; lia).
  split; [exact H|].
  exact (reorderTasks_from_beyond 2 0 [taskA; taskB] H).
Defined.

(** X12.  A negative [fromIndex] counts from the end of the list, and
    from the start when it reaches further back than the list is long. *)
Theorem reorderTasks_from_negative (fromIndex toIndex : Z) (ts : list task) :
  fromIndex < 0 ->
  reorderTasks fromIndex toIndex ts
  = reorderTasks (Z.max (fromIndex + Z.of_nat (List.length ts)) 0) toIndex ts.
Proof.
  intros H. unfold reorderTasks, spliceDelete1.
  assert (E : spliceStart fromIndex (map Some ts)
              = spliceStart (Z.max (fromIndex + Z.of_nat (List.length ts)) 0) (map Some ts)).
  { unfold spliceStart. rewrite length_map.
    destruct (fromIndex <? 0) eqn:N; [|apply Z.ltb_ge in N; lia].
    destruct (Z.max (fromIndex + Z.of_nat (List.length ts)) 0 <? 0) eqn:M;
      [apply Z.ltb_lt in M; lia|].
    f_equal. lia. }
  rewrite E. reflexivity.
Qed.

Lemma reorderTasks_from_negative_witness :
  -1 < 0
  /\ reorderTasks (-1) 0 [taskA; taskB; taskC]
     = reorderTasks (Z.max (-1 + Z.of_nat (List.length [taskA; taskB; taskC])) 0) 0
         [taskA; taskB; taskC].
Proof.
  assert (H : -1 < 0) by lia.
  split; [exact H|].
  exact (reorderTasks_from_negative (-1) 0 [taskA; taskB; taskC] H).
Defined.

(** ** Due dates on a row *)

Lemma days_sign (diff : Z) :
  (diff / (1000 * 60 * 60 * 24) <? 0) = (diff <? 0).
Proof.
  change (1000 * 60 * 60 * 24) with 86400000.
  destruct (diff <? 0) eqn:E; [apply Z.ltb_lt in E; apply Z.ltb_lt
                              | apply Z.ltb_ge in E; apply Z.ltb_ge];
    Z.div_mod_to_equations; lia.
Qed.

(** X13.  The label of a due date: empty exactly when the task has no
    due date; [Overdue] exactly when the due date is before now;
    [Due today] exactly when it is less than 24 hours ahead, and
    [Due tomorrow] when it is between 24 and 48 hours ahead, whatever the
    calendar day. *)
Theorem getTimeRemaining_thresholds (now : Z) (t : task) :
  match dueDate t with
  | None => getTimeRemaining now t = EmptyString
  | Some due =>
      getTimeRemaining now t <> EmptyString
      /\ (getTimeRemaining now t = "Overdue"%string <-> due < now)
      /\ (getTimeRemaining now t = "Due today"%string <-> 0 <= due - now < 86400000)
      /\ (getTimeRemaining now t = "Due tomorrow"%string
          <-> 86400000 <= due - now < 172800000)
  end.
Proof.
  unfold getTimeRemaining. destruct (dueDate t) as [due|]; [|reflexivity].
  cbv zeta. change (1000 * 60 * 60 * 24) with 86400000.
  set (days := (due - now) / 86400000).
  assert (Hd : 86400000 * days <= due - now < 86400000 * days + 86400000).
  { subst days. Z.div_mod_to_equations. lia. }
  destruct (days <? 0) eqn:E0; [apply Z.ltb_lt in E0 | apply Z.ltb_ge in E0].
  { repeat split; try discriminate; try lia; intros; exfalso; lia. }
  destruct (days =? 0) eqn:E1; [apply Z.eqb_eq in E1 | apply Z.eqb_neq in E1].
  { repeat split; try discriminate; try lia; intros; exfalso; lia. }
  destruct (days =? 1) eqn:E2; [apply Z.eqb_eq in E2 | apply Z.eqb_neq in E2].
  { repeat split; try discriminate; try lia; intros; exfalso; lia. }
  destruct (days <? 7); [|destruct (days <? 30)];
    cbn [String.append];
    (split; [discriminate|]);
    (split; [split; [discriminate | intros; exfalso; lia]|]);
    (split; split; try (intros; exfalso; lia); intros H; exfalso; congruence).
Qed.

(** X14.  A row is flagged overdue exactly when its task is not
    completed and its label, taken at the same clock reading, is
    [Overdue]; a completed task is never flagged, whatever its label. *)
Theorem isOverdue_matches_label (now : Z) (t : task) :
  isOverdue now t
  = negb (completed t) && String.eqb (getTimeRemaining now t) "Overdue".
Proof.
  unfold isOverdue, getTimeRemaining. destruct (dueDate t) as [due|].
  - cbv zeta. rewrite days_sign.
    replace (due - now <? 0) with (due <? now).
    2:{ destruct (due <? now) eqn:E; symmetry;
          [apply Z.ltb_lt in E; apply Z.ltb_lt | apply Z.ltb_ge in E; apply Z.ltb_ge]; lia. }
    destruct (due <? now).
    + rewrite andb_comm. reflexivity.
    + cbn [andb].
      destruct ((due - now) / (1000 * 60 * 60 * 24) =? 0);
        [rewrite andb_comm; reflexivity|].
      destruct ((due - now) / (1000 * 60 * 60 * 24) =? 1);
        [rewrite andb_comm; reflexivity|].
      destruct ((due - now) / (1000 * 60 * 60 * 24) <? 7);
        [rewrite andb_comm; reflexivity|].
      destruct ((due - now) / (1000 * 60 * 60 * 24) <? 30);
        rewrite andb_comm; reflexivity.
  - rewrite andb_comm. reflexivity.
Qed.

(** X15.  A task that is overdue after an [addTask] was in the list
    before, or was added with a date that lay in the future at the add and
    has passed since: the add itself never produces an overdue task. *)
Theorem addTask_not_overdue (clk : clock) (newTask : string) (prio : Priority)
    (selectedDate : Z) (ts : list task) (later : Z) (t : task) :
  In t (addTask clk newTask prio selectedDate ts) ->
  isOverdue later t = true ->
  In t ts \/ (now_due clk < selectedDate /\ selectedDate < later).
Proof.
  unfold addTask.
  destruct (JsString.truthy (JsString.trim newTask)); [|intros H _; left; exact H].
  intros [H|H] Ho; [|left; exact H]. right. subst t.
  unfold isOverdue in Ho. cbn [dueDate completed] in Ho.
  destruct (now_due clk <? selectedDate) eqn:E; [|discriminate].
  apply Z.ltb_lt in E. apply andb_true_iff in Ho. destruct Ho as [Ho _].
  apply Z.ltb_lt in Ho. split; assumption.
Qed.

Lemma addTask_not_overdue_witness :
  In (mkTask 1000 "pay" false 1000 low (Some 2000))
     (addTask (at_instant 1000) "pay" low 2000 [taskA])
  /\ isOverdue 3000 (mkTask 1000 "pay" false 1000 low (Some 2000)) = true
  /\ (In (mkTask 1000 "pay" false 1000 low (Some 2000)) [taskA]
      \/ (now_due (at_instant 1000) < 2000 /\ 2000 < 3000)).
Proof.
  assert (H1 : In (mkTask 1000 "pay" false 1000 low (Some 2000))
                  (addTask (at_instant 1000) "pay" low 2000 [taskA]))
    by (left; reflexivity).
  assert (H2 : isOverdue 3000 (mkTask 1000 "pay" false 1000 low (Some 2000)) = true)
    by reflexivity.
  split; [exact H1|]. split; [exact H2|].
  exact (addTask_not_overdue (at_instant 1000) "pay" low 2000 [taskA] 3000 _ H1 H2).
Defined.

(** X16.  The date picker of a row sets any date: after a past date is
    picked, every not completed task with the row's id is overdue at
    once. *)
Theorem rowDateChange_past_is_overdue (t : task) (d now : Z) (ts : list task) (u : task) :
  d < now ->
  In u (rowDateChange t (Some d) ts) ->
  id u = id t -> completed u = false ->
  dueDate u = Some d /\ isOverdue now u = true.
Proof.
  intros Hd Hin Hid Hc. unfold rowDateChange, updateTaskDueDate in Hin.
  apply in_map_iff in Hin. destruct Hin as [v [Hv _]].
  destruct (id v =? id t) eqn:E.
  - subst u. cbn [with_dueDate completed] in Hc.
    unfold isOverdue. cbn [with_dueDate dueDate completed].
    rewrite Hc. split; [reflexivity|].
    apply andb_true_iff. split; [apply Z.ltb_lt; exact Hd | reflexivity].
  - subst u. apply Z.eqb_neq in E. contradiction.
Qed.

Lemma rowDateChange_past_is_overdue_witness :
  5 < 10
  /\ In (with_dueDate (Some 5) taskA) (rowDateChange taskA (Some 5) [taskA; taskB])
  /\ dueDate (with_dueDate (Some 5) taskA) = Some 5
  /\ isOverdue 10 (with_dueDate (Some 5) taskA) = true.
Proof.
  assert (H1 : 5 < 10) by lia.
  assert (H2 : In (with_dueDate (Some 5) taskA)
                  (rowDateChange taskA (Some 5) [taskA; taskB]))
    by (left; reflexivity).
  split; [exact H1|]. split; [exact H2|].
  exact (rowDateChange_past_is_overdue taskA 5 10 [taskA; taskB] _ H1 H2 eq_refl eq_refl).
Defined.

(** ** The add form *)

(** X17.  Pressing the add button twice adds at most one task: an
    accepted press empties the text of the form, so that the next press
    is rejected until something is typed again. *)
Theorem pressAdd_twice (clk1 clk2 : clock) (reset1 reset2 : Z) (f : form)
    (ts : list task) :
  let once := pressAdd clk1 reset1 f ts in
  let twice := pressAdd clk2 reset2 (fst once) (snd once) in
  snd twice = snd once /\ fst twice = fst once.
Proof.
  cbv zeta. unfold pressAdd, formAfterAdd. cbn [fst snd].
  destruct (JsString.truthy (JsString.trim (f_newTask f))) eqn:E.
  - split; reflexivity.
  - rewrite E. unfold addTask. rewrite E. split; reflexivity.
Qed.

(** ** Loading what was saved, and saving what was loaded *)

Module PersistMore.
Import Persist.

Lemma storable_persistable (t : task) : storable t -> persistable t.
Proof.
  intros [Hid H]. split; [apply PersistFacts.validTime_safeInt; exact Hid | exact H].
Qed.

Lemma reviveElement_persistable (t : task) :
  persistable t -> reviveElement (taskToJSON t) = Ok t.
Proof.
  intros [_ [Hcr Hdue]]. destruct t as [i tx c cr p due].
  cbn [createdAt dueDate] in *.
  unfold reviveElement, taskToJSON.
  cbn [id text completed createdAt priority dueDate].
  destruct due as [d|]; cbn;
    rewrite PersistFacts.priorityOfName_priorityName; cbn;
    unfold withDates; cbn [p_id p_text p_completed p_createdAt p_priority p_dueDate];
    rewrite PersistFacts.newDate_toISOString by exact Hcr; cbn [bind].
  - rewrite IsoDateFacts.toISOString_truthy.
    rewrite PersistFacts.newDate_toISOString by exact Hdue. reflexivity.
  - reflexivity.
Qed.

Lemma exactJson_persistable (ts : list task) :
  Forall persistable ts -> exactJson (JArr (map taskToJSON ts)).
Proof.
  induction 1 as [|t ts Ht Hts IH]; [exact I|].
  cbn [exactJson map allOf] in *. split; [|exact IH].
  destruct Ht as [Hid _]. unfold taskToJSON. cbn.
  split; [exact Hid|]. destruct (dueDate t); repeat split.
Qed.

(** Parsing the saved text gives persistable tasks back. *)
Lemma parseSavedTasks_persistable (ts : list task) :
  Forall persistable ts -> parseSavedTasks (stringifyTasks ts) = Ok ts.
Proof.
  intros H. unfold parseSavedTasks, stringifyTasks.
  rewrite JsonFacts.parse_stringify by (apply exactJson_persistable; exact H).
  cbn [bind]. induction H as [|t ts Ht Hts IH]; [reflexivity|].
  cbn [map mapOutcome]. rewrite (reviveElement_persistable t Ht). cbn [bind].
  rewrite IH. reflexivity.
Qed.

(** What the two effects leave in storage, as [loadData] reads it. *)
Lemma getItem_after_effects (a : app) (st : storage) :
  isLoading a = false ->
  getItem "@tasks" (saveTheme a (saveTasks a st)) = Some (stringifyTasks (tasks a))
  /\ getItem "@theme" (saveTheme a (saveTasks a st))
     = Some (if isDarkMode a then "dark" else "light")%string.
Proof.
  intros L. unfold saveTheme, saveTasks. rewrite L. split; reflexivity.
Qed.
End PersistMore.

(** X18.  What the two save effects write, [loadData] restores in full
    at the next start: the task list, when its ids are exact numbers and
    its dates are dates, and the theme with it. *)
Theorem saved_state_loads_back (a : Persist.app) (st : Persist.storage) :
  Forall persistable (Persist.tasks a) ->
  Persist.isLoading a = false ->
  Persist.loadData (saveTheme a (Persist.saveTasks a st)) Persist.initialApp
  = Ok (Persist.mkApp (Persist.tasks a) (Persist.isDarkMode a) false).
Proof.
  intros Hp L.
  destruct (PersistMore.getItem_after_effects a st L) as [Ht Hth].
  unfold Persist.loadData. rewrite Ht, Hth.
  rewrite PersistFacts.stringifyTasks_truthy.
  rewrite (PersistMore.parseSavedTasks_persistable _ Hp).
  destruct (Persist.isDarkMode a); reflexivity.
Qed.

Lemma saved_state_loads_back_witness :
  Forall persistable (Persist.tasks (Persist.mkApp sampleTasks false false))
  /\ Persist.loadData
       (saveTheme (Persist.mkApp sampleTasks false false)
          (Persist.saveTasks (Persist.mkApp sampleTasks false false) Persist.emptyStorage))
       Persist.initialApp
     = Ok (Persist.mkApp sampleTasks false false).
Proof.
  assert (H : Forall persistable (Persist.tasks (Persist.mkApp sampleTasks false false))).
  { cbn. repeat constructor; cbn;
      unfold Json.safeInt, Json.maxSafe, IsoDate.validTime, IsoDate.maxTime; lia. }
  split; [exact H|].
  exact (saved_state_loads_back (Persist.mkApp sampleTasks false false)
           Persist.emptyStorage H eq_refl).
Defined.

(** X19.  When the stored tasks record cannot be read as a task array
    (its text is not JSON, or is JSON but not an array, or is an array
    that begins with [null]), [loadData] ends loading and leaves the rest
    of the state as it was: the task list, and also the theme, whatever
    theme is stored.  The save effect that follows then replaces the
    unreadable record by the serialized task list of that state. *)
Theorem loadData_failure_keeps_state (st : Persist.storage) (a : Persist.app)
    (savedTasks : string) :
  Persist.getItem "@tasks" st = Some savedTasks ->
  savedTasks <> EmptyString ->
  match Json.parse savedTasks with
  | Throws => True
  | Ok (JArr (JNull :: _)) => True
  | Ok (JArr _) => False
  | Ok _ => True
  | Unmodelled => False
  end ->
  exists b : Persist.app,
    Persist.loadData st a = Ok b
    /\ b = Persist.mkApp (Persist.tasks a) (Persist.isDarkMode a) false
    /\ Persist.getItem "@tasks" (Persist.saveTasks b st)
       = Some (Persist.stringifyTasks (Persist.tasks a)).
Proof.
  intros Hg Hne Hp.
  exists (Persist.mkApp (Persist.tasks a) (Persist.isDarkMode a) false).
  split; [|split; reflexivity].
  unfold Persist.loadData. rewrite Hg.
  destruct savedTasks as [|c r]; [congruence|]. cbn [JsString.truthy].
  unfold Persist.parseSavedTasks.
  destruct (Json.parse (String c r)) as [v| |]; [|reflexivity|contradiction].
  destruct v as [ | b | n | s0 | l | ms ]; try reflexivity.
  destruct l as [|[ | b | n | s0 | l' | ms ] l]; try contradiction.
  reflexivity.
Qed.

Lemma loadData_failure_keeps_state_witness :
  Persist.getItem "@tasks"
    (Persist.setItem "@theme" "light" (Persist.setItem "@tasks" "[null]" Persist.emptyStorage))
  = Some "[null]"%string
  /\ exists b : Persist.app,
       Persist.loadData
         (Persist.setItem "@theme" "light"
            (Persist.setItem "@tasks" "[null]" Persist.emptyStorage))
         Persist.initialApp = Ok b
       /\ b = Persist.mkApp [] true false
       /\ Persist.getItem "@tasks"
            (Persist.saveTasks b
               (Persist.setItem "@theme" "light"
                  (Persist.setItem "@tasks" "[null]" Persist.emptyStorage)))
          = Some (Persist.stringifyTasks []).
Proof.
  split; [reflexivity|].
  apply (loadData_failure_keeps_state
           (Persist.setItem "@theme" "light"
              (Persist.setItem "@tasks" "[null]" Persist.emptyStorage))
           Persist.initialApp "[null]").
  - reflexivity.
  - discriminate.
  - exact I.
Defined.

(** ** What the parser accepts *)

Module ParseFacts.
Import Digits DigitsFacts Json JsonFacts IsoDate.

Lemma digitVal_range (c : ascii) (d : Z) : digitVal c = Some d -> 0 <= d <= 9.
Proof.
  unfold digitVal. destruct ((48 <=? N_of_ascii c)%N && (N_of_ascii c <=? 57)%N) eqn:E;
    [|discriminate].
  apply andb_true_iff in E. destruct E as [E1 E2].
  apply N.leb_le in E1, E2. intros H. injection H as <-. lia.
Qed.

Lemma readNat_nonneg (s : string) (acc : Z) :
  0 <= acc -> 0 <= fst (readNat acc s).
Proof.
  revert acc. induction s as [|c r IH]; intros acc H; [exact H|].
  cbn [readNat]. destruct (digitVal c) as [d|] eqn:E; [|exact H].
  apply IH. apply digitVal_range in E. lia.
Qed.

Lemma readMagnitude_range (s r : string) (n : Z) :
  readMagnitude s = Ok (n, r) -> 0 <= n <= maxSafe.
Proof.
  unfold readMagnitude. destruct s as [|c s]; [discriminate|].
  destruct (digitVal c) as [d|] eqn:E; [|discriminate].
  apply digitVal_range in E.
  assert (H : 0 <= fst (if d =? 0 then (0, s) else readNat d s)).
  { destruct (d =? 0); [cbn; lia | apply readNat_nonneg; lia]. }
  destruct (if d =? 0 then (0, s) else readNat d s) as [m r'].
  cbn [fst] in H.
  destruct (startsFraction r'); [discriminate|].
  destruct (startsWithDigit r'); [discriminate|].
  destruct (m <=? maxSafe) eqn:L; [|discriminate].
  apply Z.leb_le in L. intros Q. injection Q as <- _. lia.
Qed.

Lemma readNumber_exact (s r : string) (v : json) :
  readNumber s = Ok (v, r) -> exactJson v.
Proof.
  unfold readNumber. destruct s as [|c s]; [discriminate|].
  destruct (Ascii.eqb c "-").
  - destruct (readMagnitude s) as [[n r']| |] eqn:E; try discriminate.
    cbn [bind]. intros Q. injection Q as <- _.
    apply readMagnitude_range in E. cbn. unfold safeInt. lia.
  - destruct (readMagnitude (String c s)) as [[n r']| |] eqn:E; try discriminate.
    cbn [bind]. intros Q. injection Q as <- _.
    apply readMagnitude_range in E. cbn. unfold safeInt. unfold maxSafe in *. lia.
Qed.

Lemma literal_exact (lit : string) (v0 v : json) (s r : string) :
  exactJson v0 -> literal lit v0 s = Ok (v, r) -> exactJson v.
Proof.
  unfold literal. intros H0. destruct (readLiteral lit s); [|discriminate].
  intros Q. injection Q as <- _. exact H0.
Qed.

(** Every value the parser returns holds exact numbers only. *)
Lemma read_exact (fuel : nat) :
  (forall s v r, readValue fuel s = Ok (v, r) -> exactJson v)
  /\ (forall s l r, readElements fuel s = Ok (l, r) -> allOf exactJson l)
  /\ (forall s ms r, readMembers fuel s = Ok (ms, r) ->
        allOf (fun m => exactJson (snd m)) ms).
Proof.
  induction fuel as [|fuel [IHv [IHe IHm]]].
  - repeat split; intros; discriminate.
  - split; [|split].
    + intros s v r. rewrite readValue_unfold.
      destruct (skipSpace s) as [|c s']; [discriminate|].
      destruct (Ascii.eqb c "n"); [apply literal_exact; exact I|].
      destruct (Ascii.eqb c "t"); [apply literal_exact; exact I|].
      destruct (Ascii.eqb c "f"); [apply literal_exact; exact I|].
      destruct (Ascii.eqb c "034").
      { destruct (readChars s') as [[str r']| |]; try discriminate.
        cbn [bind]. intros Q. injection Q as <- _. exact I. }
      destruct (Ascii.eqb c "[").
      { destruct (startsWith "]" (skipSpace s')).
        - intros Q. injection Q as <- _. exact I.
        - destruct (readElements fuel s') as [[l r']| |] eqn:E; try discriminate.
          cbn [bind]. intros Q. injection Q as <- _. apply (IHe _ _ _ E). }
      destruct (Ascii.eqb c "{").
      { destruct (startsWith "}" (skipSpace s')).
        - intros Q. injection Q as <- _. exact I.
        - destruct (readMembers fuel s') as [[ms r']| |] eqn:E; try discriminate.
          cbn [bind]. intros Q. injection Q as <- _. apply (IHm _ _ _ E). }
      apply readNumber_exact.
    + intros s l r. rewrite readElements_unfold.
      destruct (readValue fuel s) as [[v r1]| |] eqn:E; try discriminate.
      cbn [bind]. cbv zeta.
      destruct (startsWith "," (skipSpace r1)).
      * destruct (readElements fuel (tail (skipSpace r1))) as [[l' r2]| |] eqn:E2;
          try discriminate.
        cbn [bind]. intros Q. injection Q as <- _.
        split; [apply (IHv _ _ _ E) | apply (IHe _ _ _ E2)].
      * destruct (startsWith "]" (skipSpace r1)); [|discriminate].
        intros Q. injection Q as <- _. split; [apply (IHv _ _ _ E) | exact I].
    + intros s ms r. rewrite readMembers_unfold. cbv zeta.
      destruct (startsWith "034" (skipSpace s)); [|discriminate].
      destruct (readChars (tail (skipSpace s))) as [[key r1]| |]; try discriminate.
      cbn [bind].
      destruct (startsWith ":" (skipSpace r1)); [|discriminate].
      destruct (readValue fuel (tail (skipSpace r1))) as [[v r2]| |] eqn:E;
        try discriminate.
      cbn [bind].
      destruct (startsWith "," (skipSpace r2)).
      * destruct (readMembers fuel (tail (skipSpace r2))) as [[ms' r3]| |] eqn:E2;
          try discriminate.
        cbn [bind]. intros Q. injection Q as <- _.
        split; [apply (IHv _ _ _ E) | apply (IHm _ _ _ E2)].
      * destruct (startsWith "}" (skipSpace r2)); [|discriminate].
        intros Q. injection Q as <- _. split; [apply (IHv _ _ _ E) | exact I].
Qed.

Lemma parse_exact (s : string) (v : json) : parse s = Ok v -> exactJson v.
Proof.
  unfold parse.
  destruct (readValue (S (2 * String.length s)) s) as [[v' r]| |] eqn:E; try discriminate.
  cbn [bind]. destruct (skipSpace r); [|discriminate].
  intros Q. injection Q as <-.
  apply (proj1 (read_exact _) _ _ _ E).
Qed.

Lemma timeOfFields_valid (f : fields) (t : Z) :
  timeOfFields f = Some t -> validTime t.
Proof.
  unfold timeOfFields.
  match goal with |- context [if ?b then _ else None] => destruct b end;
    [|discriminate].
  match goal with |- context [validTimeb ?x] => destruct (validTimeb x) eqn:V end;
    [|discriminate].
  intros Q. injection Q as <-.
  unfold validTimeb in V. apply andb_true_iff in V. destruct V as [V1 V2].
  apply Z.leb_le in V1, V2. split; assumption.
Qed.

(** A date string [Date.parse] reads gives a time value a [Date] holds. *)
Lemma parseISO_valid (s : string) (t : Z) : parseISO s = Some t -> validTime t.
Proof.
  unfold parseISO. intros H.
  repeat match type of H with
         | obind ?o _ = Some _ =>
             let E := fresh "E" in
             destruct o as [?|] eqn:E; cbn [obind] in H; [|discriminate]
         | (let '(_, _) := ?p in _) = Some _ => destruct p
         end.
  match type of H with
  | match ?x with EmptyString => _ | String _ _ => _ end = _ =>
      destruct x; [|discriminate]
  end.
  apply timeOfFields_valid in H. exact H.
Qed.
End ParseFacts.

Module LoadFacts.
Import Persist.

Lemma member_exact (key : string) (ms : list (string * json)) (v : json) :
  member key ms = Some v ->
  allOf (fun m => exactJson (snd m)) ms -> exactJson v.
Proof.
  induction ms as [|[k w] ms IH]; [discriminate|].
  cbn [member allOf snd]. intros H [Hw Hms].
  destruct (String.eqb k key); [injection H as <-; exact Hw | apply IH; assumption].
Qed.

Lemma asParsedTask_fields (ms : list (string * json)) (p : parsedTask) :
  asParsedTask (JObj ms) = Some p ->
  member "id" ms = Some (JNum (p_id p)).
Proof.
  unfold asParsedTask. destruct (List.length ms =? 6)%nat; [|discriminate].
  destruct (member "id" ms) as [[ | b | n | s | l | ms' ]|]; try discriminate.
  destruct (member "text" ms) as [[ | b | n' | s | l | ms' ]|]; try discriminate.
  destruct (member "completed" ms) as [[ | b | n' | s' | l | ms' ]|]; try discriminate.
  destruct (member "createdAt" ms) as [[ | b' | n' | s' | l | ms' ]|]; try discriminate.
  destruct (member "priority" ms) as [[ | b' | n' | s'' | l | ms' ]|]; try discriminate.
  destruct (member "dueDate" ms) as [due|]; try discriminate.
  destruct (priorityOfName s'') as [pr|]; [|discriminate].
  destruct due; try discriminate; intros Q; injection Q as <-; reflexivity.
Qed.

Lemma newDate_valid (s : string) (t : Z) : newDate s = Ok t -> IsoDate.validTime t.
Proof.
  unfold newDate. destruct (IsoDate.parseISO s) as [t'|] eqn:E; [|discriminate].
  cbn [of_option]. intros Q. injection Q as <-.
  apply (ParseFacts.parseISO_valid s). exact E.
Qed.

Lemma withDates_valid (p : parsedTask) (t : task) :
  withDates p = Ok t ->
  id t = p_id p /\ IsoDate.validTime (createdAt t)
  /\ match dueDate t with
     | Some d => IsoDate.validTime d
     | None => True
     end.
Proof.
  unfold withDates.
  destruct (newDate (p_createdAt p)) as [cr| |] eqn:Ec; try discriminate.
  cbn [bind]. apply newDate_valid in Ec.
  destruct (p_dueDate p) as [s|].
  - destruct (JsString.truthy s).
    + destruct (newDate s) as [d| |] eqn:Ed; try discriminate.
      cbn [bind]. apply newDate_valid in Ed.
      intros Q. injection Q as <-. cbn. split; [reflexivity | split; [assumption | first [assumption | exact I]]].
    + cbn [bind]. intros Q. injection Q as <-. cbn. split; [reflexivity | split; [assumption | first [assumption | exact I]]].
  - cbn [bind]. intros Q. injection Q as <-. cbn. split; [reflexivity | split; [assumption | first [assumption | exact I]]].
Qed.

Lemma reviveElement_persistable_result (v : json) (t : task) :
  exactJson v -> reviveElement v = Ok t -> persistable t.
Proof.
  intros Hv. unfold reviveElement.
  destruct v as [ | b | n | s | l | ms ]; try discriminate;
    try (cbn [asParsedTask of_option bind]; discriminate).
  destruct (asParsedTask (JObj ms)) as [p|] eqn:E; [|discriminate].
  cbn [of_option bind]. intros H.
  apply asParsedTask_fields in E.
  apply withDates_valid in H. destruct H as [Hid [Hcr Hdue]].
  split; [|split; assumption].
  rewrite Hid. apply (member_exact _ _ _ E Hv).
Qed.

Lemma mapOutcome_persistable (l : list json) (ts : list task) :
  allOf exactJson l -> mapOutcome reviveElement l = Ok ts -> Forall persistable ts.
Proof.
  revert ts. induction l as [|v l IH]; intros ts Hl H.
  - injection H as <-. constructor.
  - cbn [mapOutcome] in H. destruct Hl as [Hv Hl].
    destruct (reviveElement v) as [t| |] eqn:E; try discriminate.
    cbn [bind] in H.
    destruct (mapOutcome reviveElement l) as [ts'| |] eqn:E'; try discriminate.
    cbn [bind] in H. injection H as <-.
    constructor; [apply (reviveElement_persistable_result v t Hv E) | apply IH; auto].
Qed.

Lemma parseSavedTasks_result (s : string) (ts : list task) :
  parseSavedTasks s = Ok ts -> Forall persistable ts.
Proof.
  unfold parseSavedTasks.
  destruct (Json.parse s) as [v| |] eqn:E; try discriminate.
  cbn [bind]. apply ParseFacts.parse_exact in E.
  destruct v as [ | b | n | s0 | l | ms ]; try discriminate.
  apply mapOutcome_persistable. exact E.
Qed.

(** Whatever [loadData] returns is a state that is not loading, and its
    tasks are persistable when those of the state before were. *)
Lemma loadData_result (st : storage) (a b : app) :
  Forall persistable (tasks a) ->
  loadData st a = Ok b ->
  Forall persistable (tasks b) /\ isLoading b = false.
Proof.
  intros Ha. unfold loadData.
  destruct (getItem "@tasks" st) as [s|].
  - destruct (JsString.truthy s).
    + destruct (parseSavedTasks s) as [ts| |] eqn:E; try discriminate.
      * intros Q. injection Q as <-. split; [|reflexivity].
        apply (parseSavedTasks_result s). exact E.
      * intros Q. injection Q as <-. split; [exact Ha | reflexivity].
    + intros Q. injection Q as <-. split; [exact Ha | reflexivity].
  - intros Q. injection Q as <-. split; [exact Ha | reflexivity].
Qed.
End LoadFacts.

(** X20.  For the stored records the embedding reads, a state that
    [loadData] returns at a start survives the next restart: what the two
    save effects write from it loads back to the same task list and
    theme.  The records read are: no tasks record or an empty one; a
    record on which the [try] block throws (not JSON text, not an array,
    an element [null]); an array of objects with exactly the six
    properties of a task, the [id] an integer that a number holds exactly,
    the dates complete ISO 8601 strings or, for [dueDate], [null] or
    empty.  On any other record [loadData] is [Unmodelled] and nothing
    is stated: see [undated_record_is_outside]. *)
Theorem loaded_state_is_stable (st st' : Persist.storage) (b : Persist.app) :
  Persist.loadData st Persist.initialApp = Ok b ->
  Persist.loadData (saveTheme b (Persist.saveTasks b st')) Persist.initialApp = Ok b.
Proof.
  intros H.
  destruct (LoadFacts.loadData_result st Persist.initialApp b (Forall_nil _) H) as [Hp L].
  destruct (PersistMore.getItem_after_effects b st' L) as [Ht Hth].
  unfold Persist.loadData. rewrite Ht, Hth.
  rewrite PersistFacts.stringifyTasks_truthy.
  rewrite (PersistMore.parseSavedTasks_persistable _ Hp).
  destruct b as [ts dark loading]. cbn [Persist.isLoading] in L. subst loading.
  cbn [Persist.tasks Persist.isDarkMode]. destruct dark; reflexivity.
Qed.

Lemma loaded_state_is_stable_witness :
  Persist.loadData foreignStorage Persist.initialApp
  = Ok (Persist.mkApp [mkTask 42 "tea & cake" true 1709208000000 high None] false false)
  /\ Persist.loadData
       (saveTheme (Persist.mkApp [mkTask 42 "tea & cake" true 1709208000000 high None] false false)
          (Persist.saveTasks
             (Persist.mkApp [mkTask 42 "tea & cake" true 1709208000000 high None] false false)
             Persist.emptyStorage))
       Persist.initialApp
     = Ok (Persist.mkApp [mkTask 42 "tea & cake" true 1709208000000 high None] false false).
Proof.
  assert (H : Persist.loadData foreignStorage Persist.initialApp
              = Ok (Persist.mkApp [mkTask 42 "tea & cake" true 1709208000000 high None]
                      false false))
    by (vm_compute; reflexivity).
  split; [exact H|].
  exact (loaded_state_is_stable foreignStorage Persist.emptyStorage _ H).
Defined.

(** A record whose [createdAt] is not a date string is outside what the
    embedding reads. *)
Example undated_record_is_outside :
  Persist.loadData undatedStorage Persist.initialApp = Unmodelled.
Proof. vm_compute. reflexivity. Qed.

(** ** Invariants along the histories of the store *)

Lemma update_in (taskId : Z) (f : task -> task) (ts : list task) (t' : task) :
  In t' (map (fun t => if id t =? taskId then f t else t) ts) ->
  exists t, In t ts /\ (t' = t \/ t' = f t).
Proof.
  intros H. apply in_map_iff in H. destruct H as [t [E Hin]].
  exists t. split; [exact Hin|].
  destruct (id t =? taskId); [right | left]; symmetry; exact E.
Qed.

Lemma release_in (index totalTasks dropPosition : Z)
    (captured current ts' : list task) (t' : task) :
  allDefined (onPanResponderRelease index totalTasks dropPosition captured current)
  = Some ts' ->
  In t' ts' -> In t' current \/ In t' captured.
Proof.
  intros H Hin. apply allDefined_Some in H.
  assert (Hs : In (Some t')
                 (onPanResponderRelease index totalTasks dropPosition captured current))
    by (rewrite H; apply in_map; exact Hin).
  unfold onPanResponderRelease in Hs.
  destruct (_ =? index) in Hs.
  - left. apply in_map_iff in Hs. destruct Hs as [u [E Hu]]. congruence.
  - right. apply PersistFacts.reorder_brings_nothing_new in Hs. exact Hs.
Qed.

(** A release of a row that was rendered sets an array without
    [undefined] slots: [perform] gives a history for every action but a
    release that names no render or no row of it. *)
Lemma perform_defined (h : history) (a : action) :
  match a with
  | DoRelease render index totalTasks dropPosition =>
      forall captured,
        nth_error (rendered h) render = Some captured ->
        0 <= index < totalTasks ->
        totalTasks <= Z.of_nat (List.length captured) ->
        perform h a <> None
  | _ => perform h a <> None
  end.
Proof.
  destruct a as [clk newTask prio sel | k | k s | k | | k p | k d | r i n dp | ];
    try (cbn [perform]; discriminate).
  intros captured Hr Hi Hn. unfold perform. rewrite Hr.
  replace ((0 <=? i) && (i <? n) && (n <=? Z.of_nat (List.length captured))) with true
    by (symmetry; apply andb_true_iff; split;
        [apply andb_true_iff; split; [apply Z.leb_le | apply Z.ltb_lt] | apply Z.leb_le];
        lia).
  unfold onPanResponderRelease.
  destruct (_ =? i) eqn:E.
  - rewrite allDefined_map_Some. discriminate.
  - destruct (nth_error captured (Z.to_nat i)) as [moved|] eqn:Hm;
      [|apply nth_error_None in Hm; lia].
    rewrite (reorderTasks_within i (Z.min (Z.max (i + dp) 0) (n - 1)) captured moved)
      by (try exact Hm; lia).
    rewrite allDefined_map_Some. discriminate.
Qed.

(** Where the tasks of the list after an action come from: each is a
    task of a list of the history before, as it was or with one property
    set by the action, or the task an add has made. *)
Lemma perform_origin (h h' : history) (a : action) (t' : task) :
  perform h a = Some h' ->
  In t' (fst h') ->
  snd h' = fst h :: snd h
  /\ ((exists l t, In l (rendered h) /\ In t l
                   /\ id t' = id t /\ createdAt t' = createdAt t
                   /\ (text t' = text t
                       \/ exists k, a = DoSaveEdit k (text t')
                                    /\ JsString.truthy (JsString.trim (text t')) = true))
      \/ (exists clk prio selectedDate,
            a = DoAdd clk (text t') prio selectedDate
            /\ JsString.truthy (JsString.trim (text t')) = true
            /\ id t' = now_id clk /\ createdAt t' = now_created clk)).
Proof.
  destruct h as [ts past]. unfold rendered. cbn [fst snd].
  intros H Hin.
  assert (Same : forall t, In t ts ->
            exists l t0, In l (ts :: past) /\ In t0 l
                         /\ id t = id t0 /\ createdAt t = createdAt t0
                         /\ (text t = text t0
                             \/ exists k, a = DoSaveEdit k (text t)
                                          /\ JsString.truthy (JsString.trim (text t)) = true)).
  { intros t Ht. exists ts, t. split; [left; reflexivity|].
    split; [exact Ht|]. split; [reflexivity|]. split; [reflexivity|]. left. reflexivity. }
  destruct a as [clk newTask prio sel | k | k s | k | | k p | k d | r i n dp | ];
    unfold perform, rendered in H; cbn [fst snd] in H.
  - injection H as <-. cbn [fst snd] in *. split; [reflexivity|].
    unfold addTask in Hin.
    destruct (JsString.truthy (JsString.trim newTask)) eqn:E;
      [|left; apply Same; exact Hin].
    destruct Hin as [<-|Hin]; [|left; apply Same; exact Hin].
    right. exists clk, prio, sel. cbn [text id createdAt].
    split; [reflexivity|]. split; [exact E|]. split; reflexivity.
  - injection H as <-. cbn [fst snd] in *. split; [reflexivity|]. left.
    cbn [toggleTask fst] in Hin. apply update_in in Hin.
    destruct Hin as [t [Ht [->| ->]]]; [apply Same; exact Ht|].
    exists ts, t. split; [left; reflexivity|]. split; [exact Ht|].
    split; [reflexivity|]. split; [reflexivity|]. left. reflexivity.
  - injection H as <-. cbn [fst snd] in *. split; [reflexivity|]. left.
    unfold saveEdit in Hin.
    destruct (JsString.truthy (JsString.trim s)) eqn:E; cbn [fst] in Hin;
      [|apply Same; exact Hin].
    apply update_in in Hin.
    destruct Hin as [t [Ht [->| ->]]]; [apply Same; exact Ht|].
    exists ts, t. split; [left; reflexivity|]. split; [exact Ht|].
    split; [reflexivity|]. split; [reflexivity|].
    right. exists k. cbn [with_text text]. split; [reflexivity | exact E].
  - injection H as <-. cbn [fst snd] in *. split; [reflexivity|]. left.
    apply filter_In in Hin. apply Same. apply Hin.
  - injection H as <-. cbn [fst snd] in *. split; [reflexivity|]. left.
    apply filter_In in Hin. apply Same. apply Hin.
  - injection H as <-. cbn [fst snd] in *. split; [reflexivity|]. left.
    apply update_in in Hin.
    destruct Hin as [t [Ht [->| ->]]]; [apply Same; exact Ht|].
    exists ts, t. split; [left; reflexivity|]. split; [exact Ht|].
    split; [reflexivity|]. split; [reflexivity|]. left. reflexivity.
  - injection H as <-. cbn [fst snd] in *. split; [reflexivity|]. left.
    apply update_in in Hin.
    destruct Hin as [t [Ht [->| ->]]]; [apply Same; exact Ht|].
    exists ts, t. split; [left; reflexivity|]. split; [exact Ht|].
    split; [reflexivity|]. split; [reflexivity|]. left. reflexivity.
  - destruct (nth_error (ts :: past) r) as [captured|] eqn:Er; [|discriminate].
    destruct ((0 <=? i) && (i <? n) && (n <=? Z.of_nat (List.length captured)));
      [|discriminate].
    destruct (allDefined (onPanResponderRelease i n dp captured ts)) as [ts'|] eqn:Ea;
      [|discriminate].
    injection H as <-. cbn [fst snd] in *. split; [reflexivity|]. left.
    destruct (release_in i n dp captured ts ts' t' Ea Hin) as [Hc|Hc].
    + apply Same. exact Hc.
    + exists captured, t'. split; [apply (nth_error_In _ _ Er)|].
      split; [exact Hc|]. split; [reflexivity|]. split; [reflexivity|]. left. reflexivity.
  - injection H as <-. cbn [fst] in Hin. contradiction.
Qed.

(** An invariant of the tasks that holds of what an add makes and is kept
    by every change of a property holds along every history. *)
Lemma performAll_invariant (P : list action -> task -> Prop) :
  (forall done a t, P done t -> P (done ++ [a]) t) ->
  (forall done h h' a t',
      (forall l t, In l (rendered h) -> In t l -> P done t) ->
      perform h a = Some h' -> In t' (fst h') -> P (done ++ [a]) t') ->
  forall acts done h h',
    (forall l t, In l (rendered h) -> In t l -> P done t) ->
    performAll acts h = Some h' ->
    forall l t, In l (rendered h') -> In t l -> P (done ++ acts) t.
Proof.
  intros Hmono Hstep. induction acts as [|a acts IH]; intros done h h' Hh H l t Hl Ht.
  - injection H as <-. rewrite app_nil_r. apply (Hh l t Hl Ht).
  - cbn [performAll] in H. destruct (perform h a) as [h1|] eqn:E; [|discriminate].
    replace (done ++ a :: acts) with ((done ++ [a]) ++ acts)
      by (rewrite <- app_assoc; reflexivity).
    refine (IH (done ++ [a]) h1 h' _ H l t Hl Ht).
    intros l1 t1 Hl1 Ht1. destruct Hl1 as [<-|Hl1].
    + apply (Hstep done h h1 a t1 Hh E Ht1).
    + apply Hmono.
      assert (Hs : snd h1 = fst h :: snd h).
      { destruct h as [ts past].
        destruct a; unfold perform, rendered in E; cbn [fst snd] in E;
          try (injection E as <-; reflexivity).
        destruct (nth_error (ts :: past) render) as [c|]; [|discriminate].
        destruct ((0 <=? index) && (index <? totalTasks)
                  && (totalTasks <=? Z.of_nat (List.length c))); [|discriminate].
        destruct (allDefined (onPanResponderRelease index totalTasks dropPosition c ts));
          [|discriminate].
        injection E as <-. reflexivity. }
      rewrite Hs in Hl1. apply (Hh l1 t1 Hl1 Ht1).
Qed.

(** X21.  Along every history from the list the store starts with, also
    with drags of rows whose handler holds an older list, every task of
    the store has the [id] and the [createdAt] of a task of the starting
    list, or those that the clock gave to one of the adds of the history:
    no action changes them or makes them up. *)
Theorem tasks_keep_identity (ts0 : list task) (acts : list action) (h : history)
    (t : task) :
  performAll acts (startingWith ts0) = Some h ->
  In t (fst h) ->
  (exists t0, In t0 ts0 /\ id t = id t0 /\ createdAt t = createdAt t0)
  \/ addedBy acts t.
Proof.
  intros H Hin.
  apply (performAll_invariant
           (fun done t => (exists t0, In t0 ts0 /\ id t = id t0
                                      /\ createdAt t = createdAt t0)
                          \/ addedBy done t))
    with (done := []) (h := startingWith ts0) (h' := h) (l := fst h); try assumption.
  - intros done a t0 [Hold|[clk [nt [pr [sel [Hi Hr]]]]]]; [left; exact Hold|].
    right. exists clk, nt, pr, sel. split; [apply in_or_app; left; exact Hi | exact Hr].
  - intros done h0 h1 a t' Hh E Ht'.
    destruct (perform_origin h0 h1 a t' E Ht') as [_ [[l [t0 [Hl [Ht0 [Hid [Hcr _]]]]]]|Hnew]].
    + destruct (Hh l t0 Hl Ht0) as [[u [Hu [H1 H2]]]|[clk [nt [pr [sel [Hi [H1 H2]]]]]]].
      * left. exists u. split; [exact Hu|]. split; congruence.
      * right. exists clk, nt, pr, sel. split; [apply in_or_app; left; exact Hi|].
        split; congruence.
    + destruct Hnew as [clk [pr [sel [Ha [_ [H1 H2]]]]]].
      right. exists clk, (text t'), pr, sel. split; [|split; assumption].
      apply in_or_app. right. left. exact Ha.
  - intros l t0 [<-|[]] Ht0. left. exists t0. split; [exact Ht0|]. split; reflexivity.
  - left. reflexivity.
Qed.

Lemma tasks_keep_identity_witness :
  performAll staleDragHistory (startingWith [taskD]) = Some staleDragEnd
  /\ In (mkTask 1 "first" false 1 low None) (fst staleDragEnd)
  /\ ((exists t0, In t0 [taskD] /\ id (mkTask 1 "first" false 1 low None) = id t0
                   /\ createdAt (mkTask 1 "first" false 1 low None) = createdAt t0)
      \/ addedBy staleDragHistory (mkTask 1 "first" false 1 low None)).
Proof.
  assert (H : performAll staleDragHistory (startingWith [taskD]) = Some staleDragEnd)
    by reflexivity.
  assert (Hin : In (mkTask 1 "first" false 1 low None) (fst staleDragEnd))
    by (left; reflexivity).
  split; [exact H|]. split; [exact Hin|].
  exact (tasks_keep_identity [taskD] staleDragHistory staleDragEnd
           (mkTask 1 "first" false 1 low None) H Hin).
Defined.

(** X22.  When no task of the list the store starts with has an empty or
    white-space-only text, no task of the store ever has one, along every
    history, also with drags of rows whose handler holds an older list:
    [addTask] and [saveEdit] reject such texts, and nothing else writes
    a text.  At a first start the list is empty. *)
Theorem texts_never_blank (ts0 : list task) (acts : list action) (h : history) :
  Forall (fun t => blank (text t) = false) ts0 ->
  performAll acts (startingWith ts0) = Some h ->
  Forall (fun t => blank (text t) = false) (fst h).
Proof.
  intros H0 H. apply Forall_forall. intros t Hin.
  apply (performAll_invariant (fun _ t => blank (text t) = false))
    with (acts := acts) (done := []) (h := startingWith ts0) (h' := h) (l := fst h);
    try assumption.
  - intros done a t0 Hb. exact Hb.
  - intros done h0 h1 a t' Hh E Ht'.
    destruct (perform_origin h0 h1 a t' E Ht')
      as [_ [[l [t0 [Hl [Ht0 [_ [_ [Htx|[k [_ Htr]]]]]]]]]|[clk [pr [sel [_ [Htr _]]]]]]].
    + rewrite Htx. apply (Hh l t0 Hl Ht0).
    + rewrite trim_truthy in Htr. apply negb_true_iff in Htr. exact Htr.
    + rewrite trim_truthy in Htr. apply negb_true_iff in Htr. exact Htr.
  - intros l t0 [<-|[]] Ht0. apply (proj1 (Forall_forall _ _) H0 t0 Ht0).
  - left. reflexivity.
Qed.

Lemma texts_never_blank_witness :
  Forall (fun t => blank (text t) = false) [taskD]
  /\ performAll editDragHistory (startingWith [taskD]) = Some editDragEnd
  /\ Forall (fun t => blank (text t) = false) (fst editDragEnd).
Proof.
  assert (H0 : Forall (fun t => blank (text t) = false) [taskD])
    by (repeat constructor).
  assert (H : performAll editDragHistory (startingWith [taskD]) = Some editDragEnd)
    by (vm_compute; reflexivity).
  split; [exact H0|]. split; [exact H|].
  exact (texts_never_blank [taskD] editDragHistory editDragEnd H0 H).
Defined.
